(** * pretix.base.models.items: quota availability and variation combinatorics

    A shallow embedding of [src/pretix/base/models/items.py].  The Django
    models become records, the database becomes a record of tables (lists
    of rows, many-to-many relations as their through tables), the calls to
    [now()] become reads of a clock, and Python exceptions become a result
    type.  Python dictionaries are finite maps. *)

From stdpp Require Import gmap strings list sorting pretty.
From Stdlib Require Import ZArith Lia Ascii.

Local Open Scope Z_scope.

(** ** Data model *)

(** A [datetime] is a point on the time line, counted in seconds. *)
Definition datetime : Type := Z.

(** A [DecimalField(decimal_places=2)] value, counted in hundredths. *)
Definition Decimal : Type := Z.

(** Modelled from the spec: the [Order] model lives outside this file; the
    code only compares [order.status] with [Order.STATUS_PAID] and
    [Order.STATUS_PENDING], every other status is [STATUS_OTHER]. *)
Inductive OrderStatus : Type := STATUS_PENDING | STATUS_PAID | STATUS_OTHER.

Record Order : Type := {
  order_status : OrderStatus;
  order_expires : datetime
}.

(** Modelled from the spec: the columns of [OrderPosition] and
    [CartPosition] that the queries of [Quota] read. *)
Record OrderPosition : Type := {
  op_item : Z;
  op_variation : option Z;
  op_order : Order
}.

Record CartPosition : Type := {
  cp_item : Z;
  cp_variation : option Z;
  cp_expires : datetime
}.

Record Property : Type := {
  property_id : Z;
  property_item : option Z
}.

Record PropertyValue : Type := {
  pv_id : Z;
  prop_id : Z;
  position : Z
}.

Record ItemVariation : Type := {
  iv_id : Z;
  iv_item : Z;
  iv_active : bool;
  iv_default_price : option Decimal
}.

Record Quota : Type := {
  quota_id : Z;
  size : option Z
}.

(** A [VariationDict]: a dictionary whose integer keys are property ids and
    whose string keys are ['variation'], ['available'] and ['price'].  A
    string key that is absent is [None]; the price stored under ['price']
    may itself be Python's [None]. *)
Record VariationDict : Type := {
  vd_values : gmap Z PropertyValue;
  vd_variation : option ItemVariation;
  vd_available : option bool;
  vd_price : option (option Decimal)
}.

(** An [Item] instance, with the two attributes the caching methods set on it. *)
Record Item : Type := {
  item_id : Z;
  active : bool;
  default_price : option Decimal;
  available_from : option datetime;
  available_until : option datetime;
  _get_all_variations_cache : option (list VariationDict);
  _get_all_available_variations_cache : option (list VariationDict)
}.

(** The tables the methods query.  [tbl_itemvariation_values],
    [tbl_quota_items] and [tbl_quota_variations] are the through tables of
    [ItemVariation.values], [Quota.items] and [Quota.variations]. *)
Record Db : Type := {
  tbl_property : list Property;
  tbl_propertyvalue : list PropertyValue;
  tbl_itemvariation : list ItemVariation;
  tbl_itemvariation_values : list (Z * Z);
  tbl_quota : list Quota;
  tbl_quota_items : list (Z * Z);
  tbl_quota_variations : list (Z * Z);
  tbl_orderposition : list OrderPosition;
  tbl_cartposition : list CartPosition
}.

#[global] Instance OrderStatus_eq_dec : EqDecision OrderStatus.
Proof. solve_decision. Defined.
#[global] Instance PropertyValue_eq_dec : EqDecision PropertyValue.
Proof. solve_decision. Defined.
#[global] Instance ItemVariation_eq_dec : EqDecision ItemVariation.
Proof. solve_decision. Defined.
#[global] Instance Quota_eq_dec : EqDecision Quota.
Proof. solve_decision. Defined.

(** ** Effects: the clock and exceptions *)

Inductive exn : Type := ValueError | TypeError | KeyError.

Inductive result (A : Type) : Type :=
| Ok (a : A)
| Raise (e : exn).
Arguments Ok {A} a.
Arguments Raise {A} e.

(** What a call can read: the database and the clock.  [clock n] is the
    instant the [n]-th call of [now()] returns. *)
Record Env : Type := {
  db : Db;
  clock : nat -> datetime
}.

(** A computation reads the environment, may raise, and counts the clock
    reads made so far. *)
Definition M (A : Type) : Type := Env -> nat -> result A * nat.

Definition ret {A} (a : A) : M A := fun _ n => (Ok a, n).

Definition bind {A B} (m : M A) (k : A -> M B) : M B :=
  fun e n =>
    match m e n with
    | (Ok a, n') => k a e n'
    | (Raise x, n') => (Raise x, n')
    end.

Definition raise {A} (x : exn) : M A := fun _ n => (Raise x, n).

Definition now : M datetime := fun e n => (Ok (clock e n), S n).

Definition database : M Db := fun e n => (Ok (db e), n).

Declare Scope py_scope.
Delimit Scope py_scope with py.
Notation "x <- c1 ;; c2" := (bind c1 (fun x => c2))
  (at level 100, c1 at next level, right associativity) : py_scope.
Local Open Scope py_scope.

(** The value a computation returns, and the clock reads it leaves behind. *)
Definition eval {A} (m : M A) (e : Env) (n : nat) : result A := fst (m e n).
Definition reads {A} (m : M A) (e : Env) (n : nat) : nat := snd (m e n).

(** [[f(x) for x in l]]: the calls are made from left to right. *)
Fixpoint mapM {A B} (f : A -> M B) (l : list A) : M (list B) :=
  match l with
  | [] => ret []
  | x :: l' => y <- f x ;; ys <- mapM f l' ;; ret (y :: ys)
  end.

(** ** Quota *)

Definition AVAILABILITY_GONE : Z := 0.
Definition AVAILABILITY_ORDERED : Z := 10.
Definition AVAILABILITY_RESERVED : Z := 20.
Definition AVAILABILITY_OK : Z := 100.

(** The lookups [item__quotas] and [variation__quotas] of a filter span
    the two many-to-many relations, so the query joins every position with
    the rows of both through tables (LEFT OUTER JOIN): one joined row for
    each pair of a quota of the item and a quota of the variation, a side
    without any row being [NULL]. *)
Definition left_outer_join (ids : list Z) : list (option Z) :=
  match ids with
  | [] => [None]
  | _ :: _ => map Some ids
  end.

(** The quotas the through tables link to an item, and to the variation of
    a position, one for each row. *)
Definition item_quota_ids (d : Db) (item : Z) : list Z :=
  map fst (List.filter (fun r => bool_decide (r.2 = item)) (tbl_quota_items d)).

Definition variation_quota_ids (d : Db) (variation : option Z) : list Z :=
  match variation with
  | None => []
  | Some v =>
      map fst (List.filter (fun r => bool_decide (r.2 = v)) (tbl_quota_variations d))
  end.

(** The joined rows of a position: the quota on the side of its item and
    the quota on the side of its variation. *)
Definition joined_quotas (d : Db) (item : Z) (variation : option Z)
    : list (option Z * option Z) :=
  list_prod (left_outer_join (item_quota_ids d item))
            (left_outer_join (variation_quota_ids d variation)).

(** [Quota._position_lookup], as the condition on one joined row:
    [item__quotas__in=[self]] and [variation__quotas__in=[self]] compare
    the quota of the row on either side with [self]. *)
Definition _position_lookup (self : Quota) (variation : option Z)
    (row : option Z * option Z) : bool :=
  (bool_decide (variation = None) && bool_decide (row.1 = Some (quota_id self)))
  || bool_decide (row.2 = Some (quota_id self)).

(** SQL [SUM] over a column that may hold [NULL]: nulls are skipped, and
    the sum of no value at all is [NULL]. *)
Definition Sum (col : list (option Z)) : option Z :=
  foldr (fun x acc =>
           match x, acc with
           | None, _ => acc
           | Some v, None => Some v
           | Some v, Some a => Some (v + a)
           end) None col.

(** [Case(When(cond, then=1))] without a default: [NULL] when [cond] fails. *)
Definition Case_When (cond : bool) (then_ : Z) : option Z :=
  if cond then Some then_ else None.

(** The rows [count_in_cart] counts among: every cart position, once for
    each of its joined rows that passes the lookup. *)
Definition cart_rows (d : Db) (self : Quota) : list CartPosition :=
  flat_map
    (fun r => map (fun _ => r)
                (List.filter (_position_lookup self (cp_variation r))
                             (joined_quotas d (cp_item r) (cp_variation r))))
    (tbl_cartposition d).

Definition count_in_cart (self : Quota) : M Z :=
  t <- now ;;
  d <- database ;;
  ret (Z.of_nat (length
    (List.filter (fun r => t <=? cp_expires r) (cart_rows d self)))).

(** The rows [count_orders] aggregates over: every order position, once
    for each of its joined rows that passes the lookup. *)
Definition order_rows (d : Db) (self : Quota) : list OrderPosition :=
  flat_map
    (fun r => map (fun _ => r)
                (List.filter (_position_lookup self (op_variation r))
                             (joined_quotas d (op_item r) (op_variation r))))
    (tbl_orderposition d).

Definition paid_case (r : OrderPosition) : option Z :=
  Case_When (bool_decide (order_status (op_order r) = STATUS_PAID)) 1.

Definition pending_case (t : datetime) (r : OrderPosition) : option Z :=
  Case_When (bool_decide (order_status (op_order r) = STATUS_PENDING)
             && (t <=? order_expires (op_order r))) 1.

(** The result of [.aggregate(paid=..., pending=...)]. *)
Definition aggregate_orders (d : Db) (self : Quota) (t : datetime)
    : gmap string (option Z) :=
  {[ "paid" := Sum (map paid_case (order_rows d self));
     "pending" := Sum (map (pending_case t) (order_rows d self)) ]}.

(** [for k, v in o.items(): if v is None: o[k] = 0] *)
Definition none_to_zero (v : option Z) : option Z :=
  match v with
  | None => Some 0
  | Some _ => v
  end.

Definition count_orders (self : Quota) : M (gmap string (option Z)) :=
  t <- now ;;
  d <- database ;;
  let o := aggregate_orders d self t in
  ret (none_to_zero <$> o).

(** [o[k]] used as a number: a missing key and a [None] value both raise. *)
Definition getitem (o : gmap string (option Z)) (k : string) : M Z :=
  match o !! k with
  | None => raise KeyError
  | Some None => raise TypeError
  | Some (Some z) => ret z
  end.

Definition availability (self : Quota) : M (Z * option Z) :=
  match size self with
  | None => ret (AVAILABILITY_OK, None)
  | Some size_left =>
      orders <- count_orders self ;;
      paid <- getitem orders "paid" ;;
      let size_left := size_left - paid in
      if size_left <=? 0 then ret (AVAILABILITY_GONE, Some 0) else
      pending <- getitem orders "pending" ;;
      let size_left := size_left - pending in
      if size_left <=? 0 then ret (AVAILABILITY_ORDERED, Some 0) else
      in_cart <- count_in_cart self ;;
      let size_left := size_left - in_cart in
      if size_left <=? 0 then ret (AVAILABILITY_RESERVED, Some 0) else
      ret (AVAILABILITY_OK, Some size_left)
  end.

(** ** Querysets *)

(** [Meta.ordering = ("position", "id")] of [PropertyValue]. *)
Definition sortkey_le (a b : PropertyValue) : Prop :=
  position a < position b \/ (position a = position b /\ pv_id a <= pv_id b).

#[global] Instance sortkey_le_dec : RelDecision sortkey_le.
Proof. intros a b. unfold sortkey_le. apply _. Defined.

Definition order_by_position (l : list PropertyValue) : list PropertyValue :=
  merge_sort sortkey_le l.

(** [prop.values.all()] *)
Definition Property_values_all (d : Db) (prop : Property) : list PropertyValue :=
  order_by_position
    (List.filter (fun v => bool_decide (prop_id v = property_id prop))
                 (tbl_propertyvalue d)).

(** [var.values.all()] *)
Definition ItemVariation_values_all (d : Db) (var : ItemVariation)
    : list PropertyValue :=
  order_by_position
    (List.filter
       (fun v => bool_decide ((iv_id var, pv_id v) ∈ tbl_itemvariation_values d))
       (tbl_propertyvalue d)).

(** [self.properties.all()] *)
Definition Item_properties_all (d : Db) (self : Item) : list Property :=
  List.filter (fun p => bool_decide (property_item p = Some (item_id self)))
              (tbl_property d).

(** [self.variations.all()] *)
Definition Item_variations_all (d : Db) (self : Item) : list ItemVariation :=
  List.filter (fun v => bool_decide (iv_item v = item_id self))
              (tbl_itemvariation d).

(** [self.quotas.all()] on an item and on a variation. *)
Definition Item_quotas_all (d : Db) (self : Item) : list Quota :=
  List.filter (fun q => bool_decide ((quota_id q, item_id self) ∈ tbl_quota_items d))
              (tbl_quota d).

Definition ItemVariation_quotas_all (d : Db) (self : ItemVariation) : list Quota :=
  List.filter
    (fun q => bool_decide ((quota_id q, iv_id self) ∈ tbl_quota_variations d))
    (tbl_quota d).

(** The annotation [qc=Count('quotas')] of a variation row. *)
Definition qc (d : Db) (var : ItemVariation) : Z :=
  Z.of_nat (length (List.filter (fun r => bool_decide (r.2 = iv_id var))
                                (tbl_quota_variations d))).

(** ** Item *)

Definition is_available (self : Item) : M bool :=
  if negb (active self) then ret false else
  too_early <- match available_from self with
               | None => ret false
               | Some from => t <- now ;; ret (t <? from)
               end ;;
  if (too_early : bool) then ret false else
  too_late <- match available_until self with
              | None => ret false
              | Some until => t <- now ;; ret (until <? t)
              end ;;
  if (too_late : bool) then ret false else
  ret true.

(** [itertools.product] applied to a list of pools: the rightmost pool
    advances fastest. *)
Fixpoint product {A} (pools : list (list A)) : list (list A) :=
  match pools with
  | [] => [[]]
  | pool :: rest => flat_map (fun x => map (cons x) (product rest)) pool
  end.

(** Python's order on pairs of integers, and [sorted] on a list of them. *)
Definition tuple_le (a b : Z * Z) : Prop :=
  a.1 < b.1 \/ (a.1 = b.1 /\ a.2 <= b.2).

#[global] Instance tuple_le_dec : RelDecision tuple_le.
Proof. intros a b. unfold tuple_le. apply _. Defined.

Definition sorted (key : list (Z * Z)) : list (Z * Z) := merge_sort tuple_le key.

Definition VariationDict_new : VariationDict :=
  {| vd_values := ∅; vd_variation := None; vd_available := None; vd_price := None |}.

(** [var[k] = v] for a property id [k], and [var['variation'] = iv]. *)
Definition setitem (k : Z) (v : PropertyValue) (var : VariationDict) : VariationDict :=
  {| vd_values := <[k := v]> (vd_values var); vd_variation := vd_variation var;
     vd_available := vd_available var; vd_price := vd_price var |}.

Definition set_variation (iv : ItemVariation) (var : VariationDict) : VariationDict :=
  {| vd_values := vd_values var; vd_variation := Some iv;
     vd_available := vd_available var; vd_price := vd_price var |}.

(** The key of a list of values: the sorted tuple of [(prop id, value id)]. *)
Definition key_of (values : list PropertyValue) : list (Z * Z) :=
  sorted (map (fun v => (prop_id v, pv_id v)) values).

(** The dictionary [variations_cache] of [get_all_variations]: a later
    variation with the same key replaces an earlier one. *)
Definition variations_cache (d : Db) (all_variations : list ItemVariation)
    : gmap (list (Z * Z)) ItemVariation :=
  foldl (fun cache var => <[key_of (ItemVariation_values_all d var) := var]> cache)
        ∅ all_variations.

(** The body of the loop over [product(...)] in [get_all_variations]. *)
Definition comb_to_dict (cache : gmap (list (Z * Z)) ItemVariation)
    (comb : list PropertyValue) : VariationDict :=
  if bool_decide (length comb = 0%nat) then VariationDict_new else
  let key := key_of comb in
  let var := foldl (fun var v => setitem (prop_id v) v var) VariationDict_new comb in
  match cache !! key with
  | Some iv => set_variation iv var
  | None => var
  end.

Definition set_all_variations_cache (r : list VariationDict) (self : Item) : Item :=
  {| item_id := item_id self; active := active self;
     default_price := default_price self;
     available_from := available_from self;
     available_until := available_until self;
     _get_all_variations_cache := Some r;
     _get_all_available_variations_cache := _get_all_available_variations_cache self |}.

Definition set_all_available_variations_cache (r : list VariationDict) (self : Item)
    : Item :=
  {| item_id := item_id self; active := active self;
     default_price := default_price self;
     available_from := available_from self;
     available_until := available_until self;
     _get_all_variations_cache := _get_all_variations_cache self;
     _get_all_available_variations_cache := Some r |}.

(** What [get_all_variations] computes when it does not answer from the
    attribute set by an earlier call. *)
Definition all_variations_computed (d : Db) (self : Item) : list VariationDict :=
  let all_variations := Item_variations_all d self in
  let all_properties := Item_properties_all d self in
  let cache := variations_cache d all_variations in
  map (comb_to_dict cache) (product (map (Property_values_all d) all_properties)).

(** [get_all_variations]: the result, and the instance as the call leaves it. *)
Definition get_all_variations (d : Db) (self : Item) (use_cache : bool)
    : list VariationDict * Item :=
  match use_cache, _get_all_variations_cache self with
  | true, Some cached => (cached, self)
  | _, _ =>
      let result := all_variations_computed d self in
      (result, set_all_variations_cache result self)
  end.

Definition _get_all_generated_variations (d : Db) (self : Item) : list VariationDict :=
  let propids : gset Z := list_to_set (map property_id (Item_properties_all d self)) in
  if bool_decide (base.size propids = 0%nat) then [VariationDict_new] else
  let all_variations :=
    List.filter (fun var => 0 <? qc d var) (Item_variations_all d self) in
  flat_map
    (fun var =>
       let values := ItemVariation_values_all d var in
       if bool_decide (list_to_set (map prop_id values) ≠ propids) then [] else
       let vardict :=
         foldl (fun vardict v => setitem (prop_id v) v vardict) VariationDict_new values in
       [set_variation var vardict])
    all_variations.

(** The loop of [get_all_available_variations] on one dictionary. *)
Definition set_available_and_price (self : Item) (var : VariationDict) : VariationDict :=
  let available :=
    match vd_variation var with
    | Some iv => iv_active iv
    | None => true
    end in
  let price :=
    match vd_variation var with
    | Some iv =>
        match iv_default_price iv with
        | Some p => Some p
        | None => default_price self
        end
    | None => default_price self
    end in
  {| vd_values := vd_values var; vd_variation := vd_variation var;
     vd_available := Some available; vd_price := Some price |}.

(** [var['available']] as a condition; the loop above has set the key on
    every dictionary the comprehension reads. *)
Definition available_flag (var : VariationDict) : bool :=
  match vd_available var with
  | Some b => b
  | None => false
  end.

Definition all_available_variations_computed (d : Db) (self : Item)
    : list VariationDict :=
  let variations := _get_all_generated_variations d self in
  let variations := map (set_available_and_price self) variations in
  List.filter available_flag variations.

Definition get_all_available_variations (d : Db) (self : Item) (use_cache : bool)
    : list VariationDict * Item :=
  match use_cache, _get_all_available_variations_cache self with
  | true, Some cached => (cached, self)
  | _, _ =>
      let variations := all_available_variations_computed d self in
      (variations, set_all_available_variations_cache variations self)
  end.

(** ** check_quotas *)

(** [sys.maxsize] of a 64-bit CPython. *)
Definition sys_maxsize : Z := 2 ^ 63 - 1.

(** [lambda s: (s[0], s[1] if s[1] is not None else sys.maxsize)] *)
Definition min_key (s : Z * option Z) : Z * Z :=
  (s.1, match s.2 with Some r => r | None => sys_maxsize end).

(** [a < b] on pairs of integers. *)
Definition tuple_ltb (a b : Z * Z) : bool :=
  (a.1 <? b.1) || ((a.1 =? b.1) && (a.2 <? b.2)).

(** [min(l, key=min_key)]: the first element whose key is smallest; on an
    empty list [min] raises [ValueError]. *)
Fixpoint min_from (best : Z * option Z) (l : list (Z * option Z)) : Z * option Z :=
  match l with
  | [] => best
  | x :: l' => min_from (if tuple_ltb (min_key x) (min_key best) then x else best) l'
  end.

Definition py_min (l : list (Z * option Z)) : M (Z * option Z) :=
  match l with
  | [] => raise ValueError
  | x :: l' => ret (min_from x l')
  end.

Definition Item_check_quotas (self : Item) : M (Z * option Z) :=
  d <- database ;;
  if 0 <? Z.of_nat (length (Item_properties_all d self)) then raise ValueError else
  results <- mapM availability (Item_quotas_all d self) ;;
  py_min results.

Definition ItemVariation_check_quotas (self : ItemVariation) : M (Z * option Z) :=
  d <- database ;;
  results <- mapM availability (ItemVariation_quotas_all d self) ;;
  py_min results.

(** ** The counts and the verdict as the specification words them *)

(** The number of joined rows of a position that pass the lookup of a
    quota: how often the queries of the quota meet the position. *)
Definition lookup_rows (d : Db) (q : Quota) (item : Z) (variation : option Z) : nat :=
  length (List.filter (_position_lookup q variation)
                      (joined_quotas d item variation)).

(** Section 4.2: a row counts as paid, as pending at instant [t], or as
    held in a cart at instant [t]. *)
Definition counts_as_paid (r : OrderPosition) : bool :=
  bool_decide (order_status (op_order r) = STATUS_PAID).

Definition counts_as_pending (t : datetime) (r : OrderPosition) : bool :=
  bool_decide (order_status (op_order r) = STATUS_PENDING)
  && (t <=? order_expires (op_order r)).

Definition counts_in_cart (t : datetime) (r : CartPosition) : bool :=
  t <=? cp_expires r.

Definition paidCount (d : Db) (q : Quota) : Z :=
  Z.of_nat (length (List.filter counts_as_paid (order_rows d q))).

Definition pendingCount (d : Db) (q : Quota) (t : datetime) : Z :=
  Z.of_nat (length (List.filter (counts_as_pending t) (order_rows d q))).

Definition cartCount (d : Db) (q : Quota) (t : datetime) : Z :=
  Z.of_nat (length (List.filter (counts_in_cart t) (cart_rows d q))).

(** Section 4.3: the ordered subtraction on a finite capacity. *)
Definition ordered_subtraction (capacity paid pending in_cart : Z) : Z * option Z :=
  if capacity - paid <=? 0 then (AVAILABILITY_GONE, Some 0)
  else if capacity - paid - pending <=? 0 then (AVAILABILITY_ORDERED, Some 0)
  else if capacity - paid - pending - in_cart <=? 0 then (AVAILABILITY_RESERVED, Some 0)
  else (AVAILABILITY_OK, Some (capacity - paid - pending - in_cart)).

(** The counts one call of [availability] that starts at clock read [n]
    works with: what [count_orders] returns then, and what [count_in_cart]
    returns at the read after it. *)
Definition counts_at (e : Env) (n : nat) (q : Quota) (paid pending in_cart : Z) : Prop :=
  exists orders,
    eval (count_orders q) e n = Ok orders
    /\ orders !! "paid" = Some (Some paid)
    /\ orders !! "pending" = Some (Some pending)
    /\ eval (count_in_cart q) e (S n) = Ok in_cart.

(** The database with one more order position, or one more cart position. *)
Definition add_orderposition (r : OrderPosition) (d : Db) : Db :=
  {| tbl_property := tbl_property d; tbl_propertyvalue := tbl_propertyvalue d;
     tbl_itemvariation := tbl_itemvariation d;
     tbl_itemvariation_values := tbl_itemvariation_values d;
     tbl_quota := tbl_quota d; tbl_quota_items := tbl_quota_items d;
     tbl_quota_variations := tbl_quota_variations d;
     tbl_orderposition := r :: tbl_orderposition d;
     tbl_cartposition := tbl_cartposition d |}.

Definition add_cartposition (r : CartPosition) (d : Db) : Db :=
  {| tbl_property := tbl_property d; tbl_propertyvalue := tbl_propertyvalue d;
     tbl_itemvariation := tbl_itemvariation d;
     tbl_itemvariation_values := tbl_itemvariation_values d;
     tbl_quota := tbl_quota d; tbl_quota_items := tbl_quota_items d;
     tbl_quota_variations := tbl_quota_variations d;
     tbl_orderposition := tbl_orderposition d;
     tbl_cartposition := r :: tbl_cartposition d |}.

Definition with_db (d : Db) (e : Env) : Env := {| db := d; clock := clock e |}.

(** The order on verdicts of section 4.3: by status first, then by the
    remaining count, an unlimited remaining count being the largest. *)
Definition remaining_le (a b : option Z) : Prop :=
  match a, b with
  | _, None => True
  | None, Some _ => False
  | Some x, Some y => x <= y
  end.

Definition verdict_le (a b : Z * option Z) : Prop :=
  a.1 < b.1 \/ (a.1 = b.1 /\ remaining_le a.2 b.2).

(** Section 3: the value set of a variation covers exactly the properties
    of the item when it holds one value of each of them and nothing else. *)
Definition covers_exactly (d : Db) (self : Item) (var : ItemVariation) : Prop :=
  map prop_id (ItemVariation_values_all d var)
  ≡ₚ map property_id (Item_properties_all d self).

(** The set of properties the values of a variation refer to, and the set
    of properties of the item. *)
Definition referenced_properties (d : Db) (var : ItemVariation) : gset Z :=
  list_to_set (map prop_id (ItemVariation_values_all d var)).

Definition current_properties (d : Db) (self : Item) : gset Z :=
  list_to_set (map property_id (Item_properties_all d self)).

(** A variation is a member of at least one quota. *)
Definition in_some_quota (d : Db) (var : ItemVariation) : Prop :=
  exists q, (q, iv_id var) ∈ tbl_quota_variations d.

(** A call with [use_cache=True] answers from the attribute an earlier
    call has set on the instance.  The attribute is current when it holds
    what the method computes on the present data; a call with
    [use_cache=False] does not read it. *)
Definition cache_current (use_cache : bool) (cache : option (list VariationDict))
    (computed : list VariationDict) : Prop :=
  use_cache = true -> forall r, cache = Some r -> r = computed.

(** ** Sample data *)

Module Sample.

Definition paid_position : OrderPosition :=
  {| op_item := 7; op_variation := None;
     op_order := {| order_status := STATUS_PAID; order_expires := 0 |} |}.

Definition pending_position : OrderPosition :=
  {| op_item := 7; op_variation := None;
     op_order := {| order_status := STATUS_PENDING; order_expires := 100 |} |}.

Definition cart_position : CartPosition :=
  {| cp_item := 7; cp_variation := None; cp_expires := 100 |}.

Definition quota10 : Quota := {| quota_id := 1; size := Some 10 |}.
Definition unlimited : Quota := {| quota_id := 2; size := None |}.

Definition quota5 : Quota := {| quota_id := 3; size := Some 5 |}.

(** Item 8 is a shirt with the properties 1 (size) and 2 (colour);
    property 9 belongs to no item any more. *)
Definition size_S : PropertyValue := {| pv_id := 11; prop_id := 1; position := 0 |}.
Definition size_M : PropertyValue := {| pv_id := 12; prop_id := 1; position := 1 |}.
Definition red : PropertyValue := {| pv_id := 21; prop_id := 2; position := 0 |}.
Definition blue : PropertyValue := {| pv_id := 22; prop_id := 2; position := 1 |}.
Definition old_cut : PropertyValue := {| pv_id := 91; prop_id := 9; position := 0 |}.

(** The variations of the shirt: [S_red] holds one value of each
    property; [S_M_red] holds two sizes; [M_only] has no colour;
    [M_blue] is in no quota; [M_red] is not active; [S_red_cut] still
    holds a value of property 9. *)
Definition S_red : ItemVariation :=
  {| iv_id := 101; iv_item := 8; iv_active := true; iv_default_price := Some 3000 |}.
Definition S_M_red : ItemVariation :=
  {| iv_id := 102; iv_item := 8; iv_active := true; iv_default_price := None |}.
Definition M_only : ItemVariation :=
  {| iv_id := 103; iv_item := 8; iv_active := true; iv_default_price := None |}.
Definition M_blue : ItemVariation :=
  {| iv_id := 104; iv_item := 8; iv_active := true; iv_default_price := None |}.
Definition M_red : ItemVariation :=
  {| iv_id := 105; iv_item := 8; iv_active := false; iv_default_price := None |}.
Definition S_red_cut : ItemVariation :=
  {| iv_id := 106; iv_item := 8; iv_active := true; iv_default_price := None |}.

(** Item 7 has no properties and is in the quotas 1 and 2; [paid],
    [pending] and [in_cart] positions of it exist.  Item 6 has no
    properties and is in no quota. *)
Definition shop (paid pending in_cart : nat) : Db :=
  {| tbl_property :=
       [ {| property_id := 1; property_item := Some 8 |};
         {| property_id := 2; property_item := Some 8 |};
         {| property_id := 9; property_item := None |} ];
     tbl_propertyvalue := [size_M; size_S; red; blue; old_cut];
     tbl_itemvariation := [S_red; S_M_red; M_only; M_blue; M_red; S_red_cut];
     tbl_itemvariation_values :=
       [ (101, 11); (101, 21);
         (102, 11); (102, 12); (102, 21);
         (103, 12);
         (104, 12); (104, 22);
         (105, 12); (105, 21);
         (106, 11); (106, 21); (106, 91) ];
     tbl_quota := [unlimited; quota10; quota5];
     tbl_quota_items := [(1, 7); (2, 7)];
     tbl_quota_variations :=
       [ (3, 101); (2, 101); (3, 102); (3, 103); (3, 105); (3, 106) ];
     tbl_orderposition :=
       replicate paid paid_position ++ replicate pending pending_position;
     tbl_cartposition := replicate in_cart cart_position |}.

(** The clock starts at 50 and advances by one second at every read. *)
Definition world (paid pending in_cart : nat) : Env :=
  {| db := shop paid pending in_cart; clock := fun k => 50 + Z.of_nat k |}.

(** The same shop on a clock that stands still at 50. *)
Definition frozen (paid pending in_cart : nat) : Env :=
  {| db := shop paid pending in_cart; clock := fun _ => 50 |}.

Definition ticket : Item :=
  {| item_id := 7; active := true; default_price := Some 2500;
     available_from := Some 10; available_until := Some 90;
     _get_all_variations_cache := None;
     _get_all_available_variations_cache := None |}.

Definition shirt : Item :=
  {| item_id := 8; active := true; default_price := Some 2000;
     available_from := None; available_until := None;
     _get_all_variations_cache := None;
     _get_all_available_variations_cache := None |}.

Definition leaflet : Item :=
  {| item_id := 6; active := true; default_price := Some 0;
     available_from := None; available_until := None;
     _get_all_variations_cache := None;
     _get_all_available_variations_cache := None |}.

(** An outlet where the shirt itself is in the quotas 1 and 2 and its
    variation [S_red] is in quota 3; nothing is ordered or held yet. *)
Definition outlet : Env :=
  {| db :=
       {| tbl_property :=
            [ {| property_id := 1; property_item := Some 8 |};
              {| property_id := 2; property_item := Some 8 |} ];
          tbl_propertyvalue := [size_S; red];
          tbl_itemvariation := [S_red];
          tbl_itemvariation_values := [(101, 11); (101, 21)];
          tbl_quota := [unlimited; quota10; quota5];
          tbl_quota_items := [(1, 8); (2, 8)];
          tbl_quota_variations := [(3, 101)];
          tbl_orderposition := [];
          tbl_cartposition := [] |};
     clock := fun k => 50 + Z.of_nat k |}.

Definition paid_S_red : OrderPosition :=
  {| op_item := 8; op_variation := Some 101;
     op_order := {| order_status := STATUS_PAID; order_expires := 0 |} |}.

Definition cart_S_red : CartPosition :=
  {| cp_item := 8; cp_variation := Some 101; cp_expires := 100 |}.




(** A ticket on sale from the instant 10 until the instant 50. *)
Definition early_bird : Item :=
  {| item_id := 7; active := true; default_price := Some 2000;
     available_from := Some 10; available_until := Some 50;
     _get_all_variations_cache := None;
     _get_all_available_variations_cache := None |}.

(** The shirt after a call of [get_all_available_variations] in the shop,
    and the shop after every variation has then been taken out of its
    quotas. *)
Definition shirt_after_call : Item :=
  (get_all_available_variations (shop 0 0 0) shirt false).2.

Definition shop_without_variation_quotas : Db :=
  {| tbl_property := tbl_property (shop 0 0 0);
     tbl_propertyvalue := tbl_propertyvalue (shop 0 0 0);
     tbl_itemvariation := tbl_itemvariation (shop 0 0 0);
     tbl_itemvariation_values := tbl_itemvariation_values (shop 0 0 0);
     tbl_quota := tbl_quota (shop 0 0 0);
     tbl_quota_items := tbl_quota_items (shop 0 0 0);
     tbl_quota_variations := [];
     tbl_orderposition := [];
     tbl_cartposition := [] |}.

End Sample.

(** ** The remaining methods *)

(** [ItemVariation.to_variation_dict] *)
Definition to_variation_dict (d : Db) (self : ItemVariation) : VariationDict :=
  let vd :=
    foldl (fun vd v => setitem (prop_id v) v vd) VariationDict_new
          (ItemVariation_values_all d self) in
  set_variation self vd.

(** [PropertyValue.sortkey] and [PropertyValue.__lt__] *)
Definition PropertyValue_sortkey (self : PropertyValue) : Z * Z :=
  (position self, pv_id self).

Definition PropertyValue_lt (self other : PropertyValue) : bool :=
  tuple_ltb (PropertyValue_sortkey self) (PropertyValue_sortkey other).

(** [ItemCategory], with its [sortkey] and [__lt__]. *)
Record ItemCategory : Type := {
  category_id : Z;
  category_position : Z
}.

Definition ItemCategory_sortkey (self : ItemCategory) : Z * Z :=
  (category_position self, category_id self).

Definition ItemCategory_lt (self other : ItemCategory) : bool :=
  tuple_ltb (ItemCategory_sortkey self) (ItemCategory_sortkey other).

(** [s.split(sep)] for a separator of one character: the pieces between
    the separators, an empty string giving one empty piece. *)
Fixpoint split (sep : Ascii.ascii) (s : string) : list string :=
  match s with
  | EmptyString => [EmptyString]
  | String c s' =>
      if Ascii.eqb c sep then EmptyString :: split sep s'
      else match split sep s' with
           | [] => [String c EmptyString]
           | piece :: pieces => String c piece :: pieces
           end
  end.

(** [l[-1]] on a list of strings that is not empty. *)
Definition last_piece (l : list string) : string := List.last l EmptyString.

(** [str(x)] for a primary key, which is [None] on an unsaved instance. *)
Definition str_id (x : option Z) : string :=
  match x with
  | None => "None"
  | Some z => pretty z
  end.

(** [itempicture_upload_to]: [instance.event.organizer.slug],
    [instance.event.slug] and [instance.id] are passed as they are read. *)
Definition itempicture_upload_to
    (organizer_slug event_slug : string) (id : option Z) (filename : string) : string :=
  organizer_slug +:+ "/" +:+ event_slug +:+ "/item-" +:+ str_id id +:+ "."
  +:+ last_piece (split "."%char filename).

(** ** ItemVariation.add_values_from_string *)

(** What a pair that does not unpack, a key that is no number, and the
    lookup [PropertyValue.objects.get] raise. *)
Inductive orm_exn : Type := orm_ValueError | DoesNotExist | MultipleObjectsReturned.

(** [PropertyValue.objects.get(id=..., prop_id=...)] *)
Definition objects_get (d : Db) (id prop : Z) : orm_exn + PropertyValue :=
  match List.filter (fun v => bool_decide (pv_id v = id) && bool_decide (prop_id v = prop))
                    (tbl_propertyvalue d) with
  | [] => inl DoesNotExist
  | [v] => inr v
  | _ :: _ :: _ => inl MultipleObjectsReturned
  end.

Definition set_itemvariation_values (rows : list (Z * Z)) (d : Db) : Db :=
  {| tbl_property := tbl_property d; tbl_propertyvalue := tbl_propertyvalue d;
     tbl_itemvariation := tbl_itemvariation d;
     tbl_itemvariation_values := rows;
     tbl_quota := tbl_quota d; tbl_quota_items := tbl_quota_items d;
     tbl_quota_variations := tbl_quota_variations d;
     tbl_orderposition := tbl_orderposition d;
     tbl_cartposition := tbl_cartposition d |}.

(** [self.values.add(v)]: a row of the through table, unless it is there. *)
Definition values_add (self : ItemVariation) (v : PropertyValue) (d : Db) : Db :=
  if bool_decide ((iv_id self, pv_id v) ∈ tbl_itemvariation_values d) then d
  else set_itemvariation_values
         (tbl_itemvariation_values d ++ [(iv_id self, pv_id v)]) d.

(** The body of the loop.  The keys reach the query as strings; [int] is
    the conversion to a number the query makes, [None] where it raises. *)
Definition add_value_from_pair (int : string -> option Z) (self : ItemVariation)
    (piece : string) (d : Db) : orm_exn + Db :=
  match split ":"%char piece with
  | [prop; value] =>
      match int value, int prop with
      | Some i, Some p =>
          match objects_get d i p with
          | inl x => inl x
          | inr v => inr (values_add self v d)
          end
      | _, _ => inl orm_ValueError
      end
  | _ => inl orm_ValueError
  end.

(** The loop over the pairs: the database as the loop leaves it, and the
    exception that ended it, if any. *)
Fixpoint add_values_loop (int : string -> option Z) (self : ItemVariation)
    (pairs : list string) (d : Db) : Db * option orm_exn :=
  match pairs with
  | [] => (d, None)
  | piece :: rest =>
      match add_value_from_pair int self piece d with
      | inl x => (d, Some x)
      | inr d' => add_values_loop int self rest d'
      end
  end.

Definition add_values_from_string (int : string -> option Z) (self : ItemVariation)
    (pk : string) (d : Db) : Db * option orm_exn :=
  add_values_loop int self (split ","%char pk) d.

(** Two databases that differ in the values of the variations at most. *)
Definition same_but_values (d d' : Db) : Prop :=
  tbl_property d' = tbl_property d
  /\ tbl_propertyvalue d' = tbl_propertyvalue d
  /\ tbl_itemvariation d' = tbl_itemvariation d
  /\ tbl_quota d' = tbl_quota d
  /\ tbl_quota_items d' = tbl_quota_items d
  /\ tbl_quota_variations d' = tbl_quota_variations d
  /\ tbl_orderposition d' = tbl_orderposition d
  /\ tbl_cartposition d' = tbl_cartposition d.

(** A conversion for the examples: the number a string of decimal digits
    denotes. *)
Fixpoint digits (s : string) (acc : Z) : option Z :=
  match s with
  | EmptyString => Some acc
  | String c s' =>
      let n := Z.of_nat (nat_of_ascii c) in
      if (48 <=? n) && (n <=? 57) then digits s' (10 * acc + (n - 48)) else None
  end.

Definition decimal (s : string) : option Z :=
  match s with
  | EmptyString => None
  | _ => digits s 0
  end.

(** ** Lemmas on the effects *)

Lemma eval_ret {A} (a : A) e n : eval (ret a) e n = Ok a.
Proof. reflexivity. Qed.

Lemma bind_Ok {A B} (m : M A) (k : A -> M B) e n a n' :
  m e n = (Ok a, n') -> bind m k e n = k a e n'.
Proof. intros H. unfold bind. by rewrite H. Qed.

Lemma bind_Raise {A B} (m : M A) (k : A -> M B) e n x n' :
  m e n = (Raise x, n') -> bind m k e n = (Raise x, n').
Proof. intros H. unfold bind. by rewrite H. Qed.

(** ** Quota: the counts *)

Lemma Sum_Case_When {A} (f : A -> bool) (l : list A) :
  Sum (map (fun r => Case_When (f r) 1) l)
  = match List.filter f l with
    | [] => None
    | _ :: _ => Some (Z.of_nat (length (List.filter f l)))
    end.
Proof.
  induction l as [|x l IH]; [done|].
  simpl. destruct (f x); simpl; [|exact IH].
  change (foldr _ None (map _ l)) with (Sum (map (fun r => Case_When (f r) 1) l)).
  rewrite IH. destruct (List.filter f l) as [|y l'].
  - reflexivity.
  - f_equal. simpl length. lia.
Qed.

Lemma none_to_zero_Sum {A} (f : A -> bool) (l : list A) :
  none_to_zero (Sum (map (fun r => Case_When (f r) 1) l))
  = Some (Z.of_nat (length (List.filter f l))).
Proof. rewrite Sum_Case_When. by destruct (List.filter f l). Qed.

Lemma paid_aggregate d q :
  none_to_zero (Sum (map paid_case (order_rows d q))) = Some (paidCount d q).
Proof.
  unfold paid_case. by rewrite (none_to_zero_Sum _ (order_rows d q)).
Qed.

Lemma pending_aggregate d q t :
  none_to_zero (Sum (map (pending_case t) (order_rows d q)))
  = Some (pendingCount d q t).
Proof.
  unfold pending_case. by rewrite (none_to_zero_Sum _ (order_rows d q)).
Qed.

Lemma count_orders_run q e n :
  count_orders q e n
  = (Ok ({[ "paid" := Some (paidCount (db e) q);
            "pending" := Some (pendingCount (db e) q (clock e n)) ]}
         : gmap string (option Z)), S n).
Proof.
  unfold count_orders, bind, now, database, ret, aggregate_orders. f_equal. f_equal.
  rewrite fmap_insert, map_fmap_singleton.
  by rewrite paid_aggregate, pending_aggregate.
Qed.

Lemma count_in_cart_run q e n :
  count_in_cart q e n = (Ok (cartCount (db e) q (clock e n)), S n).
Proof. reflexivity. Qed.

Lemma counts_at_inv e n q paid pending in_cart :
  counts_at e n q paid pending in_cart ->
  paid = paidCount (db e) q
  /\ pending = pendingCount (db e) q (clock e n)
  /\ in_cart = cartCount (db e) q (clock e (S n)).
Proof.
  intros (orders & Ho & Hp & Hn & Hc). unfold eval in *.
  rewrite count_orders_run in Ho. rewrite count_in_cart_run in Hc.
  simpl in Ho, Hc. injection Ho as <-. injection Hc as <-.
  rewrite lookup_insert_eq in Hp.
  rewrite lookup_insert_ne, lookup_singleton_eq in Hn by done.
  split_and!; congruence.
Qed.

Lemma counts_at_intro e n q :
  counts_at e n q (paidCount (db e) q) (pendingCount (db e) q (clock e n))
            (cartCount (db e) q (clock e (S n))).
Proof.
  eexists. unfold eval. rewrite count_orders_run, count_in_cart_run. simpl.
  split_and!; [reflexivity | | | reflexivity].
  - by rewrite lookup_insert_eq.
  - by rewrite lookup_insert_ne, lookup_singleton_eq.
Qed.

(** ** Quota: the verdict *)

Lemma availability_eval q e n :
  eval (availability q) e n
  = Ok match size q with
       | None => (AVAILABILITY_OK, None)
       | Some capacity =>
           ordered_subtraction capacity (paidCount (db e) q)
             (pendingCount (db e) q (clock e n))
             (cartCount (db e) q (clock e (S n)))
       end.
Proof.
  unfold eval, availability. destruct (size q) as [capacity|]; [|done].
  rewrite (bind_Ok _ _ _ _ _ _ (count_orders_run q e n)).
  unfold getitem at 1. rewrite lookup_insert_eq.
  unfold bind at 1, ret at 1. unfold ordered_subtraction.
  destruct (capacity - paidCount (db e) q <=? 0); [done|].
  unfold getitem. rewrite lookup_insert_ne, lookup_singleton_eq by done.
  unfold bind at 1, ret at 1.
  destruct (capacity - paidCount (db e) q - pendingCount _ _ _ <=? 0); [done|].
  rewrite (bind_Ok _ _ _ _ _ _ (count_in_cart_run q e (S n))).
  by destruct (_ <=? 0).
Qed.

Lemma ordered_subtraction_status capacity paid pending in_cart :
  (ordered_subtraction capacity paid pending in_cart).1
  ∈ [AVAILABILITY_GONE; AVAILABILITY_ORDERED; AVAILABILITY_RESERVED; AVAILABILITY_OK].
Proof.
  unfold ordered_subtraction. repeat case_match; simpl; set_solver.
Qed.

(** C1: with a null capacity [availability] returns (OK, None) whatever
    the counts are; with a finite capacity it returns the result of the
    ordered subtraction of the paid, pending and cart counts, (GONE, 0),
    (ORDERED, 0), (RESERVED, 0) or (OK, remaining) with a strictly positive
    remaining; the four worked examples on a capacity of 10 follow. *)
Theorem availability_ordered_subtraction
    (e : Env) (n : nat) (q : Quota) (paid pending in_cart : Z) :
  counts_at e n q paid pending in_cart ->
  (size q = None -> eval (availability q) e n = Ok (AVAILABILITY_OK, None))
  /\ (forall capacity, size q = Some capacity ->
        eval (availability q) e n
        = Ok (if capacity - paid <=? 0 then (AVAILABILITY_GONE, Some 0)
              else if capacity - paid - pending <=? 0
                   then (AVAILABILITY_ORDERED, Some 0)
              else if capacity - paid - pending - in_cart <=? 0
                   then (AVAILABILITY_RESERVED, Some 0)
              else (AVAILABILITY_OK, Some (capacity - paid - pending - in_cart)))
        /\ (forall r, eval (availability q) e n = Ok (AVAILABILITY_OK, Some r) ->
              0 < r /\ r = capacity - paid - pending - in_cart))
  /\ (size q = Some 10 -> paid = 10 ->
        eval (availability q) e n = Ok (AVAILABILITY_GONE, Some 0))
  /\ (size q = Some 10 -> paid = 3 -> pending = 7 ->
        eval (availability q) e n = Ok (AVAILABILITY_ORDERED, Some 0))
  /\ (size q = Some 10 -> paid = 3 -> pending = 2 -> in_cart = 5 ->
        eval (availability q) e n = Ok (AVAILABILITY_RESERVED, Some 0))
  /\ (size q = Some 10 -> paid = 1 -> pending = 1 -> in_cart = 1 ->
        eval (availability q) e n = Ok (AVAILABILITY_OK, Some 7)).
Proof.
  intros Hc. apply counts_at_inv in Hc as (-> & -> & ->).
  rewrite availability_eval.
  split_and!.
  - by intros ->.
  - intros capacity ->. split; [reflexivity|].
    intros r Hr. injection Hr as Hr. unfold ordered_subtraction in Hr.
    repeat case_match; try discriminate.
    injection Hr as <-. split; [lia | reflexivity].
  - intros -> Hp. unfold ordered_subtraction. by rewrite Hp.
  - intros -> Hp Hn. unfold ordered_subtraction. by rewrite Hp, Hn.
  - intros -> Hp Hn Hi. unfold ordered_subtraction. by rewrite Hp, Hn, Hi.
  - intros -> Hp Hn Hi. unfold ordered_subtraction. by rewrite Hp, Hn, Hi.
Qed.

Lemma availability_ordered_subtraction_witness :
  eval (availability Sample.quota10) (Sample.world 1 1 1) 0
  = Ok (AVAILABILITY_OK, Some 7).
Proof.
  assert (counts_at (Sample.world 1 1 1) 0 Sample.quota10 1 1 1) as Hc.
  { eexists. split_and!; [reflexivity | | | ]; vm_compute; reflexivity. }
  destruct (availability_ordered_subtraction _ _ _ _ _ _ Hc)
    as (_ & _ & _ & _ & _ & H).
  exact (H eq_refl eq_refl eq_refl eq_refl).
Defined.

Example availability_gone :
  eval (availability Sample.quota10) (Sample.world 10 0 0) 0
  = Ok (AVAILABILITY_GONE, Some 0).
Proof. vm_compute. reflexivity. Qed.

Example availability_ordered :
  eval (availability Sample.quota10) (Sample.world 3 7 0) 0
  = Ok (AVAILABILITY_ORDERED, Some 0).
Proof. vm_compute. reflexivity. Qed.

Example availability_reserved :
  eval (availability Sample.quota10) (Sample.world 3 2 5) 0
  = Ok (AVAILABILITY_RESERVED, Some 0).
Proof. vm_compute. reflexivity. Qed.

Example availability_unlimited :
  eval (availability Sample.unlimited) (Sample.world 30 20 50) 0
  = Ok (AVAILABILITY_OK, None).
Proof. vm_compute. reflexivity. Qed.

(** C3: on a finite capacity, with the pending and cart counts fixed, a
    larger paid count gives a status that is smaller or equal in the order
    GONE < ORDERED < RESERVED < OK. *)
Theorem availability_antitone_in_paid
    (e e' : Env) (n n' : nat) (q q' : Quota)
    (capacity paid paid' pending in_cart : Z) :
  size q = Some capacity -> size q' = Some capacity ->
  counts_at e n q paid pending in_cart ->
  counts_at e' n' q' paid' pending in_cart ->
  paid <= paid' ->
  exists s r s' r',
    eval (availability q) e n = Ok (s, r)
    /\ eval (availability q') e' n' = Ok (s', r')
    /\ s' <= s
    /\ AVAILABILITY_GONE < AVAILABILITY_ORDERED < AVAILABILITY_RESERVED
    /\ AVAILABILITY_RESERVED < AVAILABILITY_OK.
Proof.
  intros Hq Hq' Hc Hc' Hle.
  apply counts_at_inv in Hc as (Hp & Hn & Hi).
  apply counts_at_inv in Hc' as (Hp' & Hn' & Hi').
  rewrite !availability_eval, Hq, Hq'.
  rewrite <- Hp, <- Hn, <- Hi, <- Hp', <- Hn', <- Hi'.
  eexists _, _, _, _. split; [apply f_equal, surjective_pairing|].
  split; [apply f_equal, surjective_pairing|].
  split; [|unfold AVAILABILITY_GONE, AVAILABILITY_ORDERED, AVAILABILITY_RESERVED,
             AVAILABILITY_OK; lia].
  unfold ordered_subtraction, AVAILABILITY_GONE, AVAILABILITY_ORDERED,
    AVAILABILITY_RESERVED, AVAILABILITY_OK.
  repeat case_match; simpl; lia.
Qed.

Lemma availability_antitone_in_paid_witness :
  exists s r s' r',
    eval (availability Sample.quota10) (Sample.world 1 1 1) 0 = Ok (s, r)
    /\ eval (availability Sample.quota10) (Sample.world 9 1 1) 0 = Ok (s', r')
    /\ s' <= s
    /\ AVAILABILITY_GONE < AVAILABILITY_ORDERED < AVAILABILITY_RESERVED
    /\ AVAILABILITY_RESERVED < AVAILABILITY_OK.
Proof.
  apply (availability_antitone_in_paid _ _ _ _ _ _ 10 1 9 1 1).
  - reflexivity.
  - reflexivity.
  - eexists. split_and!; [reflexivity | | | ]; vm_compute; reflexivity.
  - eexists. split_and!; [reflexivity | | | ]; vm_compute; reflexivity.
  - lia.
Defined.

(** ** Quota: what one more position adds to the counts *)

Lemma filter_copies_length {A B} (f : A -> bool) (r : A) (rows : list B) :
  length (List.filter f (map (fun _ => r) rows))
  = if f r then length rows else 0%nat.
Proof.
  induction rows as [|x rows IH]; [by destruct (f r)|].
  simpl. destruct (f r); simpl; congruence.
Qed.

Lemma order_rows_add r d q :
  order_rows (add_orderposition r d) q
  = map (fun _ => r)
      (List.filter (_position_lookup q (op_variation r))
                   (joined_quotas d (op_item r) (op_variation r)))
    ++ order_rows d q.
Proof. reflexivity. Qed.

Lemma cart_rows_add r d q :
  cart_rows (add_cartposition r d) q
  = map (fun _ => r)
      (List.filter (_position_lookup q (cp_variation r))
                   (joined_quotas d (cp_item r) (cp_variation r)))
    ++ cart_rows d q.
Proof. reflexivity. Qed.

Lemma paidCount_add r d q :
  paidCount (add_orderposition r d) q
  = paidCount d q
    + (if counts_as_paid r
       then Z.of_nat (lookup_rows d q (op_item r) (op_variation r)) else 0).
Proof.
  unfold paidCount. rewrite order_rows_add, List.filter_app, length_app.
  rewrite filter_copies_length. unfold lookup_rows.
  destruct (counts_as_paid r); lia.
Qed.

Lemma pendingCount_add r d q t :
  pendingCount (add_orderposition r d) q t
  = pendingCount d q t
    + (if counts_as_pending t r
       then Z.of_nat (lookup_rows d q (op_item r) (op_variation r)) else 0).
Proof.
  unfold pendingCount. rewrite order_rows_add, List.filter_app, length_app.
  rewrite filter_copies_length. unfold lookup_rows.
  destruct (counts_as_pending t r); lia.
Qed.

Lemma cartCount_add r d q t :
  cartCount (add_cartposition r d) q t
  = cartCount d q t
    + (if counts_in_cart t r
       then Z.of_nat (lookup_rows d q (cp_item r) (cp_variation r)) else 0).
Proof.
  unfold cartCount. rewrite cart_rows_add, List.filter_app, length_app.
  rewrite filter_copies_length. unfold lookup_rows.
  destruct (counts_in_cart t r); lia.
Qed.

Lemma cartCount_add_orderposition r d q t :
  cartCount (add_orderposition r d) q t = cartCount d q t.
Proof. reflexivity. Qed.

Lemma paidCount_add_cartposition r d q :
  paidCount (add_cartposition r d) q = paidCount d q.
Proof. reflexivity. Qed.

Lemma pendingCount_add_cartposition r d q t :
  pendingCount (add_cartposition r d) q t = pendingCount d q t.
Proof. reflexivity. Qed.

Lemma aggregate_None_paid d q t :
  aggregate_orders d q t !! "paid" = Some None -> paidCount d q = 0.
Proof.
  unfold aggregate_orders. rewrite lookup_insert_eq. intros H.
  pose proof (paid_aggregate d q) as Hp.
  injection H as H. rewrite H in Hp. simpl in Hp. congruence.
Qed.

Lemma aggregate_None_pending d q t :
  aggregate_orders d q t !! "pending" = Some None -> pendingCount d q t = 0.
Proof.
  unfold aggregate_orders. rewrite lookup_insert_ne, lookup_singleton_eq by done.
  intros H. pose proof (pending_aggregate d q t) as Hp.
  injection H as H. rewrite H in Hp. simpl in Hp. congruence.
Qed.

(** C4: [count_orders] returns a paid and a pending count that are never
    null (a null aggregate becomes 0); one more order position adds to the
    paid count only if its order is PAID, and to the pending count only if
    its order is PENDING and expires at or after the instant read: it then
    adds the number of its joined rows that pass the lookup of the quota,
    and nothing otherwise; a pending order that expired one second before
    adds nothing; one more cart position adds to [count_in_cart] only if it
    expires at or after the instant read. *)
Theorem count_orders_count_in_cart_unexpired (e : Env) (n : nat) (q : Quota) :
  exists paid pending in_cart,
    counts_at e n q paid pending in_cart
    /\ 0 <= paid /\ 0 <= pending /\ 0 <= in_cart
    /\ (aggregate_orders (db e) q (clock e n) !! "paid" = Some None -> paid = 0)
    /\ (aggregate_orders (db e) q (clock e n) !! "pending" = Some None ->
        pending = 0)
    /\ (forall r,
          counts_at (with_db (add_orderposition r (db e)) e) n q
            (paid +
             if bool_decide (order_status (op_order r) = STATUS_PAID)
             then Z.of_nat (lookup_rows (db e) q (op_item r) (op_variation r))
             else 0)
            (pending +
             if bool_decide (order_status (op_order r) = STATUS_PENDING)
                && (clock e n <=? order_expires (op_order r))
             then Z.of_nat (lookup_rows (db e) q (op_item r) (op_variation r))
             else 0)
            in_cart)
    /\ (forall r paid' pending' in_cart',
          counts_at (with_db (add_orderposition r (db e)) e) n q
            paid' pending' in_cart' ->
          (paid' <> paid -> order_status (op_order r) = STATUS_PAID)
          /\ (pending' <> pending ->
              order_status (op_order r) = STATUS_PENDING
              /\ clock e n <= order_expires (op_order r))
          /\ in_cart' = in_cart)
    /\ (forall r,
          order_status (op_order r) = STATUS_PENDING ->
          order_expires (op_order r) = clock e n - 1 ->
          counts_at (with_db (add_orderposition r (db e)) e) n q
            paid pending in_cart)
    /\ (forall r,
          counts_at (with_db (add_cartposition r (db e)) e) n q paid pending
            (in_cart +
             if clock e (S n) <=? cp_expires r
             then Z.of_nat (lookup_rows (db e) q (cp_item r) (cp_variation r))
             else 0))
    /\ (forall r paid' pending' in_cart',
          counts_at (with_db (add_cartposition r (db e)) e) n q
            paid' pending' in_cart' ->
          paid' = paid /\ pending' = pending
          /\ (in_cart' <> in_cart -> clock e (S n) <= cp_expires r)).
Proof.
  exists (paidCount (db e) q), (pendingCount (db e) q (clock e n)),
    (cartCount (db e) q (clock e (S n))).
  split; [apply counts_at_intro|].
  split; [unfold paidCount; lia|].
  split; [unfold pendingCount; lia|].
  split; [unfold cartCount; lia|].
  split; [apply aggregate_None_paid|].
  split; [apply aggregate_None_pending|].
  split_and!.
  - intros r.
    pose proof (counts_at_intro (with_db (add_orderposition r (db e)) e) n q) as H.
    cbn [with_db db clock] in H.
    by rewrite paidCount_add, pendingCount_add, cartCount_add_orderposition in H.
  - intros r paid' pending' in_cart' H.
    apply counts_at_inv in H as (-> & -> & ->). cbn [with_db db clock].
    rewrite paidCount_add, pendingCount_add, cartCount_add_orderposition.
    unfold counts_as_paid, counts_as_pending. split_and!.
    + case_bool_decide; [done|lia].
    + destruct (bool_decide _ && _) eqn:Hb; [|lia].
      apply andb_true_iff in Hb as [Hs He].
      apply bool_decide_eq_true in Hs. apply Z.leb_le in He. done.
    + reflexivity.
  - intros r Hs He.
    pose proof (counts_at_intro (with_db (add_orderposition r (db e)) e) n q) as H.
    cbn [with_db db clock] in H.
    rewrite paidCount_add, pendingCount_add, cartCount_add_orderposition in H.
    unfold counts_as_paid, counts_as_pending in H.
    rewrite Hs, He in H.
    replace (clock e n <=? clock e n - 1) with false in H by lia.
    rewrite (bool_decide_eq_false_2 (STATUS_PENDING = STATUS_PAID)) in H by done.
    rewrite !andb_false_r, !Z.add_0_r in H. exact H.
  - intros r.
    pose proof (counts_at_intro (with_db (add_cartposition r (db e)) e) n q) as H.
    cbn [with_db db clock] in H.
    by rewrite paidCount_add_cartposition, pendingCount_add_cartposition,
      cartCount_add in H.
  - intros r paid' pending' in_cart' H.
    apply counts_at_inv in H as (-> & -> & ->). cbn [with_db db clock].
    rewrite paidCount_add_cartposition, pendingCount_add_cartposition, cartCount_add.
    unfold counts_in_cart. split_and!; [done | done |].
    destruct (Z.leb_spec (clock e (S n)) (cp_expires r)); lia.
Qed.

Lemma count_orders_count_in_cart_unexpired_witness :
  counts_at
    (with_db
       (add_orderposition
          {| op_item := 7; op_variation := None;
             op_order := {| order_status := STATUS_PENDING; order_expires := 49 |} |}
          (db (Sample.world 1 1 0)))
       (Sample.world 1 1 0))
    0 Sample.quota10 1 1 0.
Proof.
  destruct (count_orders_count_in_cart_unexpired (Sample.world 1 1 0) 0 Sample.quota10)
    as (paid & pending & in_cart & Hc & _ & _ & _ & _ & _ & _ & _ & Hexp & _).
  apply counts_at_inv in Hc as (-> & -> & ->).
  exact (Hexp {| op_item := 7; op_variation := None;
                 op_order := {| order_status := STATUS_PENDING;
                                order_expires := 49 |} |} eq_refl eq_refl).
Defined.

(** ** check_quotas *)

Lemma availability_run q e n :
  exists v n', availability q e n = (Ok v, n') /\ eval (availability q) e n = Ok v.
Proof.
  pose proof (availability_eval q e n) as H. unfold eval in *.
  destruct (availability q e n) as [r n']. simpl in H. subst r. eauto.
Qed.

Lemma mapM_availability_run (qs : list Quota) e n :
  exists results n',
    mapM availability qs e n = (Ok results, n')
    /\ Forall2 (fun q v => exists k, eval (availability q) e k = Ok v) qs results.
Proof.
  revert n. induction qs as [|q qs IH]; intros n.
  - exists [], n. split; [reflexivity | constructor].
  - destruct (availability_run q e n) as (v & n1 & Hrun & Hev).
    destruct (IH n1) as (vs & n2 & Hrest & Hall).
    exists (v :: vs), n2. split.
    + cbn [mapM]. rewrite (bind_Ok _ _ _ _ _ _ Hrun).
      by rewrite (bind_Ok _ _ _ _ _ _ Hrest).
    + constructor; eauto.
Qed.


Lemma tuple_ltb_false a b : tuple_ltb a b = false <-> tuple_le b a.
Proof.
  destruct a as [a1 a2], b as [b1 b2]. unfold tuple_ltb, tuple_le. simpl.
  rewrite orb_false_iff, andb_false_iff, !Z.ltb_ge, Z.eqb_neq. lia.
Qed.

Lemma tuple_ltb_true a b : tuple_ltb a b = true -> tuple_le a b.
Proof.
  destruct a as [a1 a2], b as [b1 b2]. unfold tuple_ltb, tuple_le. simpl.
  rewrite orb_true_iff, andb_true_iff, !Z.ltb_lt, Z.eqb_eq. lia.
Qed.

Lemma tuple_le_refl a : tuple_le a a.
Proof. unfold tuple_le. lia. Qed.

Lemma tuple_le_trans a b c : tuple_le a b -> tuple_le b c -> tuple_le a c.
Proof. unfold tuple_le. lia. Qed.

Lemma min_from_elem best l : min_from best l ∈ best :: l.
Proof.
  revert best. induction l as [|x l IH]; intros best; simpl.
  - apply elem_of_cons. by left.
  - specialize (IH (if tuple_ltb (min_key x) (min_key best) then x else best)).
    rewrite !elem_of_cons in *.
    destruct (tuple_ltb (min_key x) (min_key best)); tauto.
Qed.

Lemma min_from_least best l y :
  y ∈ best :: l -> tuple_le (min_key (min_from best l)) (min_key y).
Proof.
  revert best y. induction l as [|x l IH]; intros best y Hy; simpl.
  - rewrite list_elem_of_singleton in Hy. subst y. apply tuple_le_refl.
  - rewrite !elem_of_cons in Hy.
    destruct (tuple_ltb (min_key x) (min_key best)) eqn:Hlt.
    + apply tuple_ltb_true in Hlt. destruct Hy as [Hy|Hy].
      * subst y. eapply tuple_le_trans; [|exact Hlt].
        apply IH, elem_of_cons. by left.
      * apply IH, elem_of_cons. exact Hy.
    + apply tuple_ltb_false in Hlt. destruct Hy as [Hy|[Hy|Hy]].
      * subst y. apply IH, elem_of_cons. by left.
      * subst y. eapply tuple_le_trans; [|exact Hlt].
        apply IH, elem_of_cons. by left.
      * apply IH, elem_of_cons. by right.
Qed.



Lemma Item_check_quotas_run self e n :
  Item_check_quotas self e n
  = if 0 <? Z.of_nat (length (Item_properties_all (db e) self))
    then (Raise ValueError, n)
    else bind (mapM availability (Item_quotas_all (db e) self)) py_min e n.
Proof.
  unfold Item_check_quotas, bind at 1, database.
  by destruct (0 <? Z.of_nat (length (Item_properties_all (db e) self))).
Qed.

Lemma ItemVariation_check_quotas_run self e n :
  ItemVariation_check_quotas self e n
  = bind (mapM availability (ItemVariation_quotas_all (db e) self)) py_min e n.
Proof. reflexivity. Qed.




Example check_quotas_ticket :
  eval (Item_check_quotas Sample.ticket) (Sample.world 1 1 1) 0
  = Ok (AVAILABILITY_OK, Some 7).
Proof. vm_compute. reflexivity. Qed.

Example check_quotas_S_red :
  eval (ItemVariation_check_quotas Sample.S_red) (Sample.world 1 1 1) 0
  = Ok (AVAILABILITY_OK, Some 5).
Proof. vm_compute. reflexivity. Qed.

(** At a capacity of [sys.maxsize] the key no longer tells a finite
    remaining count from the unlimited one. *)
Example min_key_tie_at_maxsize :
  min_from (AVAILABILITY_OK, None) [(AVAILABILITY_OK, Some sys_maxsize)]
  = (AVAILABILITY_OK, None).
Proof. reflexivity. Qed.

(** C5: on an item without properties that is in no quota, and on a
    variation that is in no quota, [check_quotas] raises [ValueError]; it
    returns no verdict. *)
Theorem check_quotas_without_quota_raises (e : Env) (n : nat) :
  (forall self : Item,
     Item_properties_all (db e) self = [] ->
     Item_quotas_all (db e) self = [] ->
     eval (Item_check_quotas self) e n = Raise ValueError
     /\ forall v, eval (Item_check_quotas self) e n <> Ok v)
  /\ (forall self : ItemVariation,
     ItemVariation_quotas_all (db e) self = [] ->
     eval (ItemVariation_check_quotas self) e n = Raise ValueError
     /\ forall v, eval (ItemVariation_check_quotas self) e n <> Ok v).
Proof.
  split.
  - intros self Hprops Hq. unfold eval.
    rewrite Item_check_quotas_run, Hprops, Hq. simpl. by split.
  - intros self Hq. unfold eval.
    rewrite ItemVariation_check_quotas_run, Hq. simpl. by split.
Qed.

Lemma check_quotas_without_quota_raises_witness :
  (eval (Item_check_quotas Sample.leaflet) (Sample.world 1 1 1) 0
   = Raise ValueError
   /\ forall v, eval (Item_check_quotas Sample.leaflet) (Sample.world 1 1 1) 0
                <> Ok v)
  /\ (eval (ItemVariation_check_quotas Sample.M_blue) (Sample.world 1 1 1) 0
      = Raise ValueError
      /\ forall v, eval (ItemVariation_check_quotas Sample.M_blue)
                        (Sample.world 1 1 1) 0 <> Ok v).
Proof.
  split.
  - apply (proj1 (check_quotas_without_quota_raises (Sample.world 1 1 1) 0)
             Sample.leaflet); reflexivity.
  - apply (proj2 (check_quotas_without_quota_raises (Sample.world 1 1 1) 0)
             Sample.M_blue); reflexivity.
Defined.

(** C9: on an item that has at least one property, [check_quotas] raises
    [ValueError] before any quota is looked at, and returns no verdict. *)
Theorem check_quotas_with_properties_raises (e : Env) (n : nat) (self : Item) :
  Item_properties_all (db e) self <> [] ->
  eval (Item_check_quotas self) e n = Raise ValueError
  /\ reads (Item_check_quotas self) e n = n
  /\ forall v, eval (Item_check_quotas self) e n <> Ok v.
Proof.
  intros Hprops. unfold eval, reads. rewrite Item_check_quotas_run.
  destruct (Item_properties_all (db e) self) as [|p props]; [done|].
  cbn [length].
  destruct (Z.ltb_spec 0 (Z.of_nat (S (length props)))) as [_|Hle]; [|lia].
  simpl. by split_and!.
Qed.

Lemma check_quotas_with_properties_raises_witness :
  eval (Item_check_quotas Sample.shirt) (Sample.world 1 1 1) 0 = Raise ValueError
  /\ reads (Item_check_quotas Sample.shirt) (Sample.world 1 1 1) 0 = 0%nat
  /\ forall v, eval (Item_check_quotas Sample.shirt) (Sample.world 1 1 1) 0 <> Ok v.
Proof.
  apply (check_quotas_with_properties_raises (Sample.world 1 1 1) 0 Sample.shirt).
  intros H. vm_compute in H. discriminate H.
Defined.

(** ** Item.is_available *)

(** What [is_available] returns, with the instants it reads: the second
    read happens only when [available_from] is set. *)
Lemma is_available_eval self e n :
  eval (is_available self) e n
  = Ok (active self
        && match available_from self with
           | None => true
           | Some from => from <=? clock e n
           end
        && match available_until self with
           | None => true
           | Some until =>
               clock e (match available_from self with
                        | None => n
                        | Some _ => S n
                        end) <=? until
           end).
Proof.
  unfold eval, is_available.
  destruct (active self); [|reflexivity]. cbn [negb andb].
  destruct (available_from self) as [from|], (available_until self) as [until|];
    unfold bind, now, ret; cbn [fst snd].
  - rewrite Z.ltb_antisym. destruct (from <=? clock e n); cbn [negb andb]; [|done].
    rewrite Z.ltb_antisym. by destruct (clock e (S n) <=? until).
  - rewrite Z.ltb_antisym. by destruct (from <=? clock e n).
  - rewrite Z.ltb_antisym. by destruct (clock e n <=? until).
  - reflexivity.
Qed.

(** C8, as stated, fails: a call on [early_bird], on sale from 10 until
    50, that starts when the clock shows 50 returns false although the item
    is active and 50 lies in its window: the clock is read a second time
    for [available_until], and then shows 51. *)
Lemma is_available_until_read_later :
  clock (Sample.world 0 0 0) 0 = 50
  /\ eval (is_available Sample.early_bird) (Sample.world 0 0 0) 0 = Ok false
  /\ active Sample.early_bird = true
  /\ (exists from, available_from Sample.early_bird = Some from /\ from <= 50)
  /\ (exists until, available_until Sample.early_bird = Some until /\ 50 <= until).
Proof.
  split_and!; [reflexivity | reflexivity | reflexivity | |].
  - exists 10. split; [reflexivity | lia].
  - exists 50. split; [reflexivity | lia].
Qed.

(** C8, amended: [is_available] returns true exactly when the item is
    active, [available_from] is null or at most the instant of the first
    reading of the clock, and [available_until] is null or at least the
    instant read for it, which is the next reading when [available_from]
    is set and the first reading otherwise; when both readings show the
    same instant, that instant is the [now] of the window; the result does
    not depend on the database, so not on any quota. *)
Theorem is_available_two_readings (e : Env) (n : nat) (self : Item) :
  exists b,
    eval (is_available self) e n = Ok b
    /\ (b = true <->
        active self = true
        /\ (available_from self = None
            \/ exists from, available_from self = Some from /\ from <= clock e n)
        /\ (available_until self = None
            \/ exists until,
                 available_until self = Some until
                 /\ clock e (match available_from self with
                             | None => n
                             | Some _ => S n
                             end) <= until))
    /\ (clock e (S n) = clock e n ->
        (b = true <->
         active self = true
         /\ (available_from self = None
             \/ exists from, available_from self = Some from /\ from <= clock e n)
         /\ (available_until self = None
             \/ exists until,
                  available_until self = Some until /\ clock e n <= until)))
    /\ forall d, eval (is_available self) (with_db d e) n
                 = eval (is_available self) e n.
Proof.
  eexists. split; [apply is_available_eval|].
  assert (forall t' : datetime,
            active self
            && match available_from self with
               | None => true
               | Some from => from <=? clock e n
               end
            && match available_until self with
               | None => true
               | Some until => t' <=? until
               end = true <->
            active self = true
            /\ (available_from self = None
                \/ exists from, available_from self = Some from /\ from <= clock e n)
            /\ (available_until self = None
                \/ exists until, available_until self = Some until /\ t' <= until))
    as Hwindow.
  { intros t'. rewrite !andb_true_iff.
    destruct (available_from self) as [from|], (available_until self) as [until|];
      rewrite ?Z.leb_le; split.
    + intros [[Ha Hf] Hu]. eauto 10.
    + intros (Ha & [?|(? & [= <-] & Hf)] & [?|(? & [= <-] & Hu)]); done.
    + intros [[Ha Hf] _]. eauto 10.
    + intros (Ha & [?|(? & [= <-] & Hf)] & _); done.
    + intros [[Ha _] Hu]. eauto 10.
    + intros (Ha & _ & [?|(? & [= <-] & Hu)]); done.
    + intros [[Ha _] _]. eauto.
    + intros (Ha & _ & _); done. }
  split_and!.
  - apply Hwindow.
  - intros Hsame. rewrite <- Hwindow.
    by destruct (available_from self); rewrite ?Hsame.
  - intros d. by rewrite !is_available_eval.
Qed.

Example is_available_at_the_bounds :
  eval (is_available Sample.ticket)
       {| db := Sample.shop 0 0 0; clock := fun _ => 10 |} 0 = Ok true
  /\ eval (is_available Sample.ticket)
          {| db := Sample.shop 0 0 0; clock := fun _ => 90 |} 0 = Ok true
  /\ eval (is_available Sample.ticket)
          {| db := Sample.shop 0 0 0; clock := fun _ => 9 |} 0 = Ok false
  /\ eval (is_available Sample.ticket)
          {| db := Sample.shop 0 0 0; clock := fun _ => 91 |} 0 = Ok false.
Proof. split_and!; reflexivity. Qed.

Example is_available_sold_out :
  eval (is_available Sample.ticket) (Sample.frozen 10 0 0) 0 = Ok true
  /\ eval (availability Sample.quota10) (Sample.frozen 10 0 0) 0
     = Ok (AVAILABILITY_GONE, Some 0).
Proof. split; vm_compute; reflexivity. Qed.

(** ** Variations: the cache attributes *)

Lemma get_all_variations_computed d self use_cache :
  cache_current use_cache (_get_all_variations_cache self)
                (all_variations_computed d self) ->
  (get_all_variations d self use_cache).1 = all_variations_computed d self.
Proof.
  unfold get_all_variations, cache_current. intros H.
  destruct use_cache; [|done].
  destruct (_get_all_variations_cache self) as [r|]; [|done].
  simpl. by apply H.
Qed.

Lemma get_all_available_variations_computed d self use_cache :
  cache_current use_cache (_get_all_available_variations_cache self)
                (all_available_variations_computed d self) ->
  (get_all_available_variations d self use_cache).1
  = all_available_variations_computed d self.
Proof.
  unfold get_all_available_variations, cache_current. intros H.
  destruct use_cache; [|done].
  destruct (_get_all_available_variations_cache self) as [r|]; [|done].
  simpl. by apply H.
Qed.

(** A call leaves behind an attribute that is current, as long as the
    data do not change. *)
Lemma get_all_variations_leaves_current d self use_cache :
  cache_current use_cache (_get_all_variations_cache self)
                (all_variations_computed d self) ->
  cache_current true
    (_get_all_variations_cache (get_all_variations d self use_cache).2)
    (all_variations_computed d self).
Proof.
  unfold get_all_variations, cache_current. intros H _ r.
  destruct use_cache; [destruct (_get_all_variations_cache self) eqn:Hc|].
  - simpl. rewrite Hc. intros [= <-]. by apply H.
  - simpl. congruence.
  - simpl. congruence.
Qed.

(** ** Variations: the dictionaries *)

Lemma foldl_setitem_variation (l : list PropertyValue) (vd : VariationDict) :
  vd_variation (foldl (fun var v => setitem (prop_id v) v var) vd l) = vd_variation vd
  /\ vd_available (foldl (fun var v => setitem (prop_id v) v var) vd l)
     = vd_available vd
  /\ vd_price (foldl (fun var v => setitem (prop_id v) v var) vd l) = vd_price vd.
Proof.
  revert vd. induction l as [|x l IH]; intros vd; [done|].
  simpl. destruct (IH (setitem (prop_id x) x vd)) as (-> & -> & ->). done.
Qed.

Lemma comb_to_dict_variation cache comb var :
  vd_variation (comb_to_dict cache comb) = Some var ->
  cache !! key_of comb = Some var.
Proof.
  unfold comb_to_dict. case_bool_decide; [discriminate|].
  destruct (cache !! key_of comb) as [iv|]; simpl.
  - congruence.
  - destruct (foldl_setitem_variation comb VariationDict_new) as (-> & _).
    discriminate.
Qed.

Lemma variations_cache_lookup d (l : list ItemVariation) k var :
  variations_cache d l !! k = Some var ->
  var ∈ l /\ key_of (ItemVariation_values_all d var) = k.
Proof.
  unfold variations_cache.
  assert (forall m : gmap (list (Z * Z)) ItemVariation,
    foldl (fun cache v => <[key_of (ItemVariation_values_all d v) := v]> cache) m l
      !! k = Some var ->
    (var ∈ l /\ key_of (ItemVariation_values_all d var) = k) \/ m !! k = Some var)
    as Hgen.
  { induction l as [|x l IH]; intros m H; [by right|].
    simpl in H. destruct (IH _ H) as [[Hin Hk]|Hm].
    - left. split; [by apply elem_of_cons; right | done].
    - apply lookup_insert_Some in Hm as [[Hk ->]|[_ Hm]].
      + left. split; [apply elem_of_cons; by left | done].
      + by right. }
  intros H. destruct (Hgen ∅ H) as [?|Hm]; [done|].
  by rewrite lookup_empty in Hm.
Qed.

Lemma key_of_Permutation (a b : list PropertyValue) :
  key_of a = key_of b -> map prop_id a ≡ₚ map prop_id b.
Proof.
  unfold key_of, sorted. intros H.
  assert (map (fun v => (prop_id v, pv_id v)) a
          ≡ₚ map (fun v => (prop_id v, pv_id v)) b) as Hp.
  { rewrite <- (merge_sort_Permutation tuple_le (map _ a)).
    rewrite H. apply merge_sort_Permutation. }
  apply (Permutation_map fst) in Hp. by rewrite !map_map in Hp.
Qed.

(** ** Variations: the querysets *)

Lemma Property_values_all_prop d p x :
  In x (Property_values_all d p) -> prop_id x = property_id p.
Proof.
  unfold Property_values_all, order_by_position. intros H.
  apply list_elem_of_In in H. rewrite merge_sort_Permutation in H.
  apply list_elem_of_In, filter_In in H as [_ H].
  by apply bool_decide_eq_true in H.
Qed.

Lemma product_prop_ids d (props : list Property) (comb : list PropertyValue) :
  In comb (product (map (Property_values_all d) props)) ->
  map prop_id comb = map property_id props.
Proof.
  revert comb. induction props as [|p props IH]; intros comb H.
  - simpl in H. destruct H as [<-|[]]. reflexivity.
  - simpl in H. apply in_flat_map in H as (x & Hx & H).
    apply in_map_iff in H as (c & <- & Hc).
    simpl. f_equal; [by eapply Property_values_all_prop | by apply IH].
Qed.

Lemma product_nil {A} : product (@nil (list A)) = [[]].
Proof. reflexivity. Qed.

Lemma current_properties_empty d self :
  base.size (current_properties d self) = 0%nat <-> Item_properties_all d self = [].
Proof.
  unfold current_properties. split.
  - intros H. apply size_empty_inv in H.
    destruct (Item_properties_all d self) as [|p props]; [done|].
    simpl in H. set_solver.
  - intros ->. reflexivity.
Qed.

Lemma qc_positive d var : 0 < qc d var -> in_some_quota d var.
Proof.
  unfold qc, in_some_quota. intros H.
  destruct (List.filter (fun r => bool_decide (r.2 = iv_id var))
                        (tbl_quota_variations d)) as [|[q v] l] eqn:Hf.
  - simpl in H. lia.
  - assert (In (q, v) (List.filter (fun r => bool_decide (r.2 = iv_id var))
                                   (tbl_quota_variations d))) as Hin
      by (rewrite Hf; by left).
    apply filter_In in Hin as [Hin Hv]. apply bool_decide_eq_true in Hv.
    simpl in Hv. subst v. exists q. by apply list_elem_of_In.
Qed.

(** ** Variations: what the two methods return *)

Lemma all_variations_computed_variation d self vd var :
  vd ∈ all_variations_computed d self -> vd_variation vd = Some var ->
  var ∈ Item_variations_all d self /\ covers_exactly d self var.
Proof.
  unfold all_variations_computed. intros Hin Hvar.
  apply list_elem_of_In, in_map_iff in Hin as (comb & <- & Hcomb).
  apply comb_to_dict_variation, variations_cache_lookup in Hvar as [Hv Hkey].
  split; [done|]. unfold covers_exactly.
  rewrite <- (product_prop_ids _ _ _ Hcomb). by apply key_of_Permutation.
Qed.

Lemma generated_variations_inv d self vd :
  vd ∈ _get_all_generated_variations d self ->
  (Item_properties_all d self = [] /\ vd = VariationDict_new)
  \/ (Item_properties_all d self <> []
      /\ exists var,
           vd_variation vd = Some var
           /\ var ∈ Item_variations_all d self
           /\ 0 < qc d var
           /\ referenced_properties d var = current_properties d self).
Proof.
  unfold _get_all_generated_variations. cbv zeta.
  change (list_to_set (map property_id (Item_properties_all d self)))
    with (current_properties d self).
  case_bool_decide as Hsz.
  - intros H. left. split; [by apply current_properties_empty|].
    by apply list_elem_of_singleton in H.
  - intros H. right. split; [by rewrite <- current_properties_empty|].
    apply list_elem_of_In, in_flat_map in H as (var & Hvar & H).
    apply filter_In in Hvar as [Hvar Hqc].
    change (list_to_set (map prop_id (ItemVariation_values_all d var)))
      with (referenced_properties d var) in H.
    case_bool_decide as Hset; [destruct H|].
    destruct H as [<-|[]]. exists var. split_and!.
    + reflexivity.
    + by apply list_elem_of_In.
    + by apply Z.ltb_lt.
    + by destruct (decide (referenced_properties d var = current_properties d self)).
Qed.

Lemma all_available_variations_computed_inv d self vd :
  vd ∈ all_available_variations_computed d self ->
  exists vd0, vd0 ∈ _get_all_generated_variations d self
              /\ vd = set_available_and_price self vd0
              /\ available_flag vd = true.
Proof.
  unfold all_available_variations_computed. intros H.
  apply list_elem_of_In, filter_In in H as [H Hflag].
  apply in_map_iff in H as (vd0 & <- & H0).
  exists vd0. split_and!; [by apply list_elem_of_In | done | done].
Qed.

Lemma all_available_variations_computed_variation d self vd var :
  vd ∈ all_available_variations_computed d self -> vd_variation vd = Some var ->
  Item_properties_all d self <> []
  /\ var ∈ Item_variations_all d self
  /\ in_some_quota d var
  /\ referenced_properties d var = current_properties d self
  /\ iv_active var = true.
Proof.
  intros H Hvar.
  apply all_available_variations_computed_inv in H as (vd0 & H0 & -> & Hflag).
  simpl in Hvar.
  apply generated_variations_inv in H0 as [[_ ->]|(Hp & var' & Hv & Hin & Hqc & Hset)].
  - discriminate Hvar.
  - rewrite Hv in Hvar. injection Hvar as ->.
    unfold available_flag, set_available_and_price in Hflag. simpl in Hflag.
    rewrite Hv in Hflag. split_and!; [done | done | by apply qc_positive | done | done].
Qed.

(** C7, as stated, fails: what [get_all_variations] returns for an item
    without properties has no ['available'] entry. *)
Lemma get_all_variations_sets_no_available :
  Item_properties_all (Sample.shop 0 0 0) Sample.ticket = []
  /\ ~ (exists vd,
          (get_all_variations (Sample.shop 0 0 0) Sample.ticket false).1 = [vd]
          /\ vd_values vd = ∅
          /\ vd_variation vd = None
          /\ vd_available vd = Some true
          /\ vd_price vd = Some (default_price Sample.ticket)).
Proof.
  split; [reflexivity|].
  intros (vd & H & _ & _ & Ha & _).
  assert ((get_all_variations (Sample.shop 0 0 0) Sample.ticket false).1
          = [VariationDict_new]) as Hc by reflexivity.
  rewrite Hc in H. injection H as <-. discriminate Ha.
Qed.

(** C7, amended: for an item without properties [get_all_variations]
    returns exactly one combination, which has no property entry, no
    variation and neither an ['available'] nor a ['price'] entry;
    [get_all_available_variations] returns exactly one combination, with
    no property entry and no variation, with available = true and price =
    the default price of the item.  A call with [use_cache] answers from
    an attribute that is current. *)
Theorem zero_properties_single_combination (d : Db) (self : Item) (use_cache : bool) :
  Item_properties_all d self = [] ->
  cache_current use_cache (_get_all_variations_cache self)
                (all_variations_computed d self) ->
  cache_current use_cache (_get_all_available_variations_cache self)
                (all_available_variations_computed d self) ->
  (exists vd,
     (get_all_variations d self use_cache).1 = [vd]
     /\ vd_values vd = ∅ /\ vd_variation vd = None
     /\ vd_available vd = None /\ vd_price vd = None)
  /\ (exists vd,
     (get_all_available_variations d self use_cache).1 = [vd]
     /\ vd_values vd = ∅ /\ vd_variation vd = None
     /\ vd_available vd = Some true
     /\ vd_price vd = Some (default_price self)).
Proof.
  intros Hprops Hc Hc'. split.
  - rewrite (get_all_variations_computed _ _ _ Hc).
    unfold all_variations_computed. rewrite Hprops. simpl.
    eexists. split; [reflexivity|]. by split_and!.
  - rewrite (get_all_available_variations_computed _ _ _ Hc').
    unfold all_available_variations_computed, _get_all_generated_variations.
    rewrite Hprops. simpl.
    eexists. split; [reflexivity|]. by split_and!.
Qed.

Lemma zero_properties_single_combination_witness :
  (exists vd,
     (get_all_variations (Sample.shop 0 0 0) Sample.ticket true).1 = [vd]
     /\ vd_values vd = ∅ /\ vd_variation vd = None
     /\ vd_available vd = None /\ vd_price vd = None)
  /\ (exists vd,
     (get_all_available_variations (Sample.shop 0 0 0) Sample.ticket true).1 = [vd]
     /\ vd_values vd = ∅ /\ vd_variation vd = None
     /\ vd_available vd = Some true
     /\ vd_price vd = Some (Some 2500)).
Proof.
  apply (zero_properties_single_combination (Sample.shop 0 0 0) Sample.ticket true).
  - reflexivity.
  - intros _ r H. discriminate H.
  - intros _ r H. discriminate H.
Defined.

(** C6, as stated, fails: the variation [S_M_red] holds two values of the
    property 1, so its value set does not cover exactly the properties of
    the shirt, and [get_all_available_variations] returns it. *)
Lemma variation_with_two_values_exposed :
  ~ covers_exactly (Sample.shop 0 0 0) Sample.shirt Sample.S_M_red
  /\ exists vd,
       vd ∈ (get_all_available_variations (Sample.shop 0 0 0) Sample.shirt false).1
       /\ vd_variation vd = Some Sample.S_M_red.
Proof.
  split.
  - unfold covers_exactly. intros H. apply Permutation_length in H.
    vm_compute in H. discriminate H.
  - exists (set_available_and_price Sample.shirt
              (set_variation Sample.S_M_red
                 (setitem 1 Sample.size_M
                    (setitem 2 Sample.red
                       (setitem 1 Sample.size_S VariationDict_new))))).
    split; [|reflexivity].
    apply list_elem_of_In.
    vm_compute. right. left. reflexivity.
Qed.

(** C6, amended: [get_all_variations] attaches to no combination a
    variation whose value set does not cover exactly the properties of the
    item (a property is missing, a value belongs to a removed property, or
    one property has several values); [get_all_available_variations] never
    returns a variation whose values refer to a set of properties other
    than the set of properties of the item (a property is missing, or a
    value belongs to a removed property).  A call with [use_cache] answers
    from an attribute that is current. *)
Theorem stale_variation_not_matched
    (d : Db) (self : Item) (use_cache : bool) (var : ItemVariation) :
  cache_current use_cache (_get_all_variations_cache self)
                (all_variations_computed d self) ->
  cache_current use_cache (_get_all_available_variations_cache self)
                (all_available_variations_computed d self) ->
  (~ covers_exactly d self var ->
   forall vd, vd ∈ (get_all_variations d self use_cache).1 ->
              vd_variation vd <> Some var)
  /\ (referenced_properties d var <> current_properties d self ->
      forall vd, vd ∈ (get_all_available_variations d self use_cache).1 ->
                 vd_variation vd <> Some var).
Proof.
  intros Hc Hc'. split.
  - intros Hstale vd Hin Hvar.
    rewrite (get_all_variations_computed _ _ _ Hc) in Hin.
    by destruct (all_variations_computed_variation _ _ _ _ Hin Hvar).
  - intros Hstale vd Hin Hvar.
    rewrite (get_all_available_variations_computed _ _ _ Hc') in Hin.
    by destruct (all_available_variations_computed_variation _ _ _ _ Hin Hvar)
      as (_ & _ & _ & ? & _).
Qed.

Lemma stale_variation_not_matched_witness :
  (forall vd,
     vd ∈ (get_all_variations (Sample.shop 0 0 0) Sample.shirt false).1 ->
     vd_variation vd <> Some Sample.S_red_cut)
  /\ (forall vd,
     vd ∈ (get_all_available_variations (Sample.shop 0 0 0) Sample.shirt false).1 ->
     vd_variation vd <> Some Sample.S_red_cut).
Proof.
  destruct (stale_variation_not_matched (Sample.shop 0 0 0) Sample.shirt false
              Sample.S_red_cut) as [H1 H2].
  - intros H. discriminate H.
  - intros H. discriminate H.
  - split.
    + apply H1. unfold covers_exactly. intros H. apply Permutation_length in H.
      vm_compute in H. discriminate H.
    + apply H2. intros H.
      apply (f_equal (fun s : gset Z => bool_decide (9 ∈ s))) in H.
      vm_compute in H. discriminate H.
Defined.

Example get_all_variations_skips_two_values :
  forall vd, vd ∈ (get_all_variations (Sample.shop 0 0 0) Sample.shirt false).1 ->
             vd_variation vd <> Some Sample.S_M_red.
Proof.
  intros vd Hin Hvar.
  destruct (all_variations_computed_variation _ _ _ _ Hin Hvar) as [_ H].
  apply Permutation_length in H. vm_compute in H. discriminate H.
Qed.

(** C10, as stated, fails: the shirt has answered one call of
    [get_all_available_variations] in the shop; after its variations have
    been taken out of every quota, a call with [use_cache] still returns
    the combination of [S_red], a variation that is in no quota then. *)
Lemma cached_variation_in_no_quota :
  Item_properties_all Sample.shop_without_variation_quotas Sample.shirt_after_call
  <> []
  /\ ~ in_some_quota Sample.shop_without_variation_quotas Sample.S_red
  /\ exists vd,
       vd ∈ (get_all_available_variations Sample.shop_without_variation_quotas
               Sample.shirt_after_call true).1
       /\ vd_variation vd = Some Sample.S_red.
Proof.
  split_and!.
  - intros H. vm_compute in H. discriminate H.
  - intros [q Hq]. by apply elem_of_nil in Hq.
  - remember (get_all_available_variations Sample.shop_without_variation_quotas
                Sample.shirt_after_call true).1 as l eqn:Hl.
    vm_compute in Hl. subst l.
    eexists. split; [left|reflexivity].
Qed.

(** C10, amended: for an item with at least one property, every
    combination [get_all_available_variations] returns carries a variation
    that is a member of at least one quota; a variation that is in no quota
    is not returned, be it active and a match of the properties of the
    item.  A call with [use_cache] answers from an attribute that is
    current. *)
Theorem available_variations_in_a_quota (d : Db) (self : Item) (use_cache : bool) :
  Item_properties_all d self <> [] ->
  cache_current use_cache (_get_all_available_variations_cache self)
                (all_available_variations_computed d self) ->
  (forall vd, vd ∈ (get_all_available_variations d self use_cache).1 ->
     exists var, vd_variation vd = Some var /\ in_some_quota d var)
  /\ (forall var,
        iv_active var = true -> covers_exactly d self var ->
        ~ in_some_quota d var ->
        forall vd, vd ∈ (get_all_available_variations d self use_cache).1 ->
                   vd_variation vd <> Some var).
Proof.
  intros Hprops Hc.
  rewrite (get_all_available_variations_computed _ _ _ Hc). split.
  - intros vd Hin.
    destruct (all_available_variations_computed_inv _ _ _ Hin) as (vd0 & H0 & Hvd & _).
    apply generated_variations_inv in H0 as [[? _]|(_ & var & Hv & _)]; [done|].
    exists var. assert (vd_variation vd = Some var) as Hvar by (by subst vd).
    split; [done|].
    by destruct (all_available_variations_computed_variation _ _ _ _ Hin Hvar)
      as (_ & _ & ? & _).
  - intros var _ _ Hq vd Hin Hvar.
    by destruct (all_available_variations_computed_variation _ _ _ _ Hin Hvar)
      as (_ & _ & ? & _).
Qed.

Lemma available_variations_in_a_quota_witness :
  (forall vd,
     vd ∈ (get_all_available_variations (Sample.shop 0 0 0) Sample.shirt false).1 ->
     exists var, vd_variation vd = Some var
                 /\ in_some_quota (Sample.shop 0 0 0) var)
  /\ (forall vd,
     vd ∈ (get_all_available_variations (Sample.shop 0 0 0) Sample.shirt false).1 ->
     vd_variation vd <> Some Sample.M_blue).
Proof.
  destruct (available_variations_in_a_quota (Sample.shop 0 0 0) Sample.shirt false)
    as [H1 H2].
  - intros H. vm_compute in H. discriminate H.
  - intros H. discriminate H.
  - split; [exact H1|]. apply (H2 Sample.M_blue).
    + reflexivity.
    + unfold covers_exactly.
      change (map prop_id (ItemVariation_values_all (Sample.shop 0 0 0) Sample.M_blue))
        with [1; 2].
      change (map property_id (Item_properties_all (Sample.shop 0 0 0) Sample.shirt))
        with [1; 2].
      reflexivity.
    + intros [q Hq].
      change (tbl_quota_variations (Sample.shop 0 0 0))
        with [(3, 101); (2, 101); (3, 102); (3, 103); (3, 105); (3, 106)] in Hq.
      rewrite !elem_of_cons in Hq. simpl in Hq.
      destruct Hq as [Hq|[Hq|[Hq|[Hq|[Hq|[Hq|Hq]]]]]];
        try discriminate Hq.
      by apply elem_of_nil in Hq.
Defined.

(** ** Quota.availability: further properties *)


Lemma counts_nonneg d q t t' :
  0 <= paidCount d q /\ 0 <= pendingCount d q t /\ 0 <= cartCount d q t'.
Proof. unfold paidCount, pendingCount, cartCount. lia. Qed.

(** X1: [availability] never raises; its status is one of the four
    constants; the remaining count is null exactly for a null capacity
    (with status OK), and otherwise it is never negative, positive exactly
    when the status is OK, and then at most the capacity. *)
Theorem availability_verdict_shape (e : Env) (n : nat) (q : Quota) :
  exists s r,
    eval (availability q) e n = Ok (s, r)
    /\ s ∈ [AVAILABILITY_GONE; AVAILABILITY_ORDERED;
            AVAILABILITY_RESERVED; AVAILABILITY_OK]
    /\ (r = None <-> size q = None)
    /\ (size q = None -> s = AVAILABILITY_OK)
    /\ (forall x, r = Some x ->
          0 <= x
          /\ (0 < x <-> s = AVAILABILITY_OK)
          /\ forall capacity, size q = Some capacity -> 0 < x -> x <= capacity).
Proof.
  rewrite availability_eval.
  destruct (size q) as [capacity|].
  - pose proof (counts_nonneg (db e) q (clock e n) (clock e (S n))) as (Hp & Hn & Hc).
    pose proof (ordered_subtraction_status capacity (paidCount (db e) q)
                  (pendingCount (db e) q (clock e n))
                  (cartCount (db e) q (clock e (S n)))) as Hs.
    destruct (ordered_subtraction _ _ _ _) as [s r] eqn:Hos.
    exists s, r. split; [done|]. split; [exact Hs|].
    unfold ordered_subtraction, AVAILABILITY_GONE, AVAILABILITY_ORDERED,
      AVAILABILITY_RESERVED, AVAILABILITY_OK in *.
    repeat case_match; injection Hos as <- <-;
      (split; [split; discriminate|]); (split; [discriminate|]);
      intros x [= <-]; (split; [lia|]); (split; [split; lia|]);
      intros c [= <-]; lia.
  - exists AVAILABILITY_OK, None. split; [done|].
    split; [rewrite !elem_of_cons; tauto|]. by split_and!.
Qed.

(** X2: with more capacity and no more paid, pending or cart positions,
    the verdict of [availability] can only move up in the order of section
    4.3: the status is at least as available, and on an equal status the
    remaining count is at least as large. *)
Theorem availability_monotone
    (e e' : Env) (n n' : nat) (q q' : Quota)
    (capacity capacity' paid paid' pending pending' in_cart in_cart' : Z) :
  size q = Some capacity -> size q' = Some capacity' ->
  counts_at e n q paid pending in_cart ->
  counts_at e' n' q' paid' pending' in_cart' ->
  capacity <= capacity' -> paid' <= paid -> pending' <= pending ->
  in_cart' <= in_cart ->
  exists v v',
    eval (availability q) e n = Ok v
    /\ eval (availability q') e' n' = Ok v'
    /\ verdict_le v v'.
Proof.
  intros Hq Hq' Hc Hc' Hcap Hp Hn Hi.
  apply counts_at_inv in Hc as (-> & -> & ->).
  apply counts_at_inv in Hc' as (-> & -> & ->).
  rewrite !availability_eval, Hq, Hq'.
  eexists _, _. split; [reflexivity|]. split; [reflexivity|].
  unfold verdict_le, remaining_le, ordered_subtraction, AVAILABILITY_GONE,
    AVAILABILITY_ORDERED, AVAILABILITY_RESERVED, AVAILABILITY_OK.
  repeat case_match; simpl in *; simplify_eq; lia.
Qed.

Lemma availability_monotone_witness :
  exists v v',
    eval (availability Sample.quota10) (Sample.world 5 2 1) 0 = Ok v
    /\ eval (availability Sample.quota10) (Sample.world 3 2 1) 0 = Ok v'
    /\ verdict_le v v'.
Proof.
  apply (availability_monotone _ _ _ _ _ _ 10 10 5 3 2 2 1 1).
  - reflexivity.
  - reflexivity.
  - eexists. split_and!; [reflexivity | | | ]; vm_compute; reflexivity.
  - eexists. split_and!; [reflexivity | | | ]; vm_compute; reflexivity.
  - lia.
  - lia.
  - lia.
  - lia.
Defined.

(** X3: a quota of capacity 0 is GONE whatever is ordered or held in
    carts; a quota of positive capacity with no order position and no cart
    position at all is OK with its whole capacity remaining. *)
Theorem availability_edge_capacities (e : Env) (n : nat) (q : Quota) (capacity : Z) :
  size q = Some capacity ->
  (capacity <= 0 -> eval (availability q) e n = Ok (AVAILABILITY_GONE, Some 0))
  /\ (0 < capacity ->
      tbl_orderposition (db e) = [] -> tbl_cartposition (db e) = [] ->
      eval (availability q) e n = Ok (AVAILABILITY_OK, Some capacity)).
Proof.
  intros Hq. rewrite availability_eval, Hq. split.
  - intros Hc.
    pose proof (counts_nonneg (db e) q (clock e n) (clock e (S n))) as (Hp & _).
    unfold ordered_subtraction. case_match; [done|lia].
  - intros Hc Ho Hcart.
    unfold ordered_subtraction, paidCount, pendingCount, cartCount,
      order_rows, cart_rows.
    rewrite Ho, Hcart. simpl. rewrite !Z.sub_0_r.
    case_match; [lia|done].
Qed.

Lemma availability_edge_capacities_witness :
  (10 <= 0 ->
   eval (availability Sample.quota10) (Sample.world 0 0 0) 0
   = Ok (AVAILABILITY_GONE, Some 0))
  /\ (0 < 10 ->
      tbl_orderposition (db (Sample.world 0 0 0)) = [] ->
      tbl_cartposition (db (Sample.world 0 0 0)) = [] ->
      eval (availability Sample.quota10) (Sample.world 0 0 0) 0
      = Ok (AVAILABILITY_OK, Some 10)).
Proof.
  apply (availability_edge_capacities (Sample.world 0 0 0) 0 Sample.quota10 10).
  reflexivity.
Defined.


Lemma list_prod_filter_snd_length {A B} (f : B -> bool) (l : list A) (l' : list B) :
  length (List.filter (fun row => f row.2) (list_prod l l'))
  = (length l * length (List.filter f l'))%nat.
Proof.
  induction l as [|a l IH]; [done|].
  cbn [list_prod]. rewrite List.filter_app, length_app, IH. cbn [length Nat.mul].
  f_equal. clear IH. induction l' as [|b l' IH]; [done|].
  simpl. destruct (f b); simpl; congruence.
Qed.

Lemma list_prod_filter_fst_length {A B} (f : A -> bool) (l : list A) (b : B) :
  length (List.filter (fun row => f row.1) (list_prod l [b]))
  = length (List.filter f l).
Proof.
  induction l as [|a l IH]; [done|].
  simpl. destruct (f a); simpl; congruence.
Qed.

Lemma left_outer_join_length (ids : list Z) :
  length (left_outer_join ids) = Nat.max 1 (length ids).
Proof. destruct ids as [|x ids]; [done|]. simpl. by rewrite length_map. Qed.

(** The rows of a through table that link a quota to one item or to one
    variation, counted on the joined side. *)
Lemma left_outer_join_links (rows : list (Z * Z)) (quota x : Z) :
  length (List.filter (fun o => bool_decide (o = Some quota))
            (left_outer_join
               (map fst (List.filter (fun r => bool_decide (r.2 = x)) rows))))
  = length (List.filter (fun r => bool_decide (r = (quota, x))) rows).
Proof.
  assert (length (List.filter (fun o => bool_decide (o = Some quota))
            (map Some
               (map fst (List.filter (fun r => bool_decide (r.2 = x)) rows))))
          = length (List.filter (fun r => bool_decide (r = (quota, x))) rows)) as H.
  { induction rows as [|[a b] rows IH]; [done|].
    cbn [List.filter snd]. destruct (decide (b = x)) as [->|Hne].
    - rewrite bool_decide_eq_true_2 by done. cbn [map List.filter fst].
      destruct (decide (a = quota)) as [->|Hq].
      + rewrite !bool_decide_eq_true_2 by done. simpl. by rewrite IH.
      + rewrite !bool_decide_eq_false_2 by congruence. exact IH.
    - rewrite (bool_decide_eq_false_2 (b = x)) by done.
      rewrite (bool_decide_eq_false_2 ((a, b) = (quota, x))) by congruence.
      exact IH. }
  destruct (map fst _) as [|y ids] eqn:Hids; [|exact H].
  simpl in *. exact H.
Qed.

Lemma lookup_rows_without_variation d q item :
  lookup_rows d q item None
  = length (List.filter (fun r => bool_decide (r = (quota_id q, item)))
                        (tbl_quota_items d)).
Proof.
  unfold lookup_rows, joined_quotas, item_quota_ids.
  cbn [variation_quota_ids left_outer_join].
  rewrite <- left_outer_join_links.
  rewrite <- (list_prod_filter_fst_length
                (fun o => bool_decide (o = Some (quota_id q))) _ (None : option Z)).
  f_equal. apply filter_ext_in. intros [a b] Hin.
  apply in_prod_iff in Hin as [_ [<-|[]]].
  unfold _position_lookup. cbn [fst snd].
  rewrite (bool_decide_eq_true_2 (None = None)) by done.
  rewrite (bool_decide_eq_false_2 (None = Some _)) by done.
  by rewrite orb_false_r.
Qed.

Lemma lookup_rows_with_variation d q item v :
  lookup_rows d q item (Some v)
  = (Nat.max 1 (length (List.filter (fun r => bool_decide (r.2 = item))
                                    (tbl_quota_items d)))
     * length (List.filter (fun r => bool_decide (r = (quota_id q, v)))
                           (tbl_quota_variations d)))%nat.
Proof.
  unfold lookup_rows, joined_quotas, item_quota_ids.
  cbn [variation_quota_ids].
  rewrite <- left_outer_join_links.
  rewrite <- (length_map fst (List.filter _ (tbl_quota_items d))).
  rewrite <- left_outer_join_length.
  rewrite <- (list_prod_filter_snd_length
                (fun o => bool_decide (o = Some (quota_id q)))).
  reflexivity.
Qed.

(** X5: a position is met once for each of its joined rows.  One more
    position that counts (an order position of a PAID order, one of a
    PENDING order that has not expired, a cart position that has not
    expired) adds, when it carries no variation, one for every row that
    links its item to the quota; when it carries a variation it adds, for
    every row that links the variation to the quota, one for each quota of
    its item, and one when the item is in no quota. *)
Theorem position_counted_per_joined_row
    (e : Env) (n : nat) (q : Quota) (paid pending in_cart : Z) :
  counts_at e n q paid pending in_cart ->
  (forall r : OrderPosition,
     order_status (op_order r) = STATUS_PAID ->
     counts_at (with_db (add_orderposition r (db e)) e) n q
       (paid +
        Z.of_nat
          match op_variation r with
          | None =>
              length (List.filter
                        (fun row => bool_decide (row = (quota_id q, op_item r)))
                        (tbl_quota_items (db e)))
          | Some v =>
              Nat.max 1 (length (List.filter
                                   (fun row => bool_decide (row.2 = op_item r))
                                   (tbl_quota_items (db e))))
              * length (List.filter
                          (fun row => bool_decide (row = (quota_id q, v)))
                          (tbl_quota_variations (db e)))
          end)
       pending in_cart)
  /\ (forall r : OrderPosition,
     order_status (op_order r) = STATUS_PENDING ->
     clock e n <= order_expires (op_order r) ->
     counts_at (with_db (add_orderposition r (db e)) e) n q
       paid
       (pending +
        Z.of_nat
          match op_variation r with
          | None =>
              length (List.filter
                        (fun row => bool_decide (row = (quota_id q, op_item r)))
                        (tbl_quota_items (db e)))
          | Some v =>
              Nat.max 1 (length (List.filter
                                   (fun row => bool_decide (row.2 = op_item r))
                                   (tbl_quota_items (db e))))
              * length (List.filter
                          (fun row => bool_decide (row = (quota_id q, v)))
                          (tbl_quota_variations (db e)))
          end)
       in_cart)
  /\ (forall r : CartPosition,
     clock e (S n) <= cp_expires r ->
     counts_at (with_db (add_cartposition r (db e)) e) n q
       paid pending
       (in_cart +
        Z.of_nat
          match cp_variation r with
          | None =>
              length (List.filter
                        (fun row => bool_decide (row = (quota_id q, cp_item r)))
                        (tbl_quota_items (db e)))
          | Some v =>
              Nat.max 1 (length (List.filter
                                   (fun row => bool_decide (row.2 = cp_item r))
                                   (tbl_quota_items (db e))))
              * length (List.filter
                          (fun row => bool_decide (row = (quota_id q, v)))
                          (tbl_quota_variations (db e)))
          end)).
Proof.
  intros Hc. apply counts_at_inv in Hc as (-> & -> & ->).
  assert (forall item variation,
            lookup_rows (db e) q item variation
            = match variation with
              | None =>
                  length (List.filter
                            (fun row => bool_decide (row = (quota_id q, item)))
                            (tbl_quota_items (db e)))
              | Some v =>
                  (Nat.max 1 (length (List.filter
                                        (fun row => bool_decide (row.2 = item))
                                        (tbl_quota_items (db e))))
                   * length (List.filter
                               (fun row => bool_decide (row = (quota_id q, v)))
                               (tbl_quota_variations (db e))))%nat
              end) as Hrows.
  { intros item [v|];
      [apply lookup_rows_with_variation | apply lookup_rows_without_variation]. }
  split_and!.
  - intros r Hs.
    pose proof (counts_at_intro (with_db (add_orderposition r (db e)) e) n q) as H.
    cbn [with_db db clock] in H.
    rewrite paidCount_add, pendingCount_add, cartCount_add_orderposition in H.
    unfold counts_as_paid, counts_as_pending in H. rewrite Hs in H.
    rewrite bool_decide_eq_true_2 in H by done.
    rewrite (bool_decide_eq_false_2 (STATUS_PAID = STATUS_PENDING)) in H by done.
    cbn [andb] in H. by rewrite Z.add_0_r, Hrows in H.
  - intros r Hs He.
    pose proof (counts_at_intro (with_db (add_orderposition r (db e)) e) n q) as H.
    cbn [with_db db clock] in H.
    rewrite paidCount_add, pendingCount_add, cartCount_add_orderposition in H.
    unfold counts_as_paid, counts_as_pending in H. rewrite Hs in H.
    rewrite (bool_decide_eq_true_2 (STATUS_PENDING = STATUS_PENDING)) in H by done.
    rewrite (bool_decide_eq_false_2 (STATUS_PENDING = STATUS_PAID)) in H by done.
    apply Z.leb_le in He. rewrite He in H.
    cbn [andb] in H. by rewrite Z.add_0_r, Hrows in H.
  - intros r He.
    pose proof (counts_at_intro (with_db (add_cartposition r (db e)) e) n q) as H.
    cbn [with_db db clock] in H.
    rewrite paidCount_add_cartposition, pendingCount_add_cartposition,
      cartCount_add in H.
    unfold counts_in_cart in H. apply Z.leb_le in He. rewrite He in H.
    by rewrite Hrows in H.
Qed.

Lemma filter_outside_nil (rows : list (Z * Z)) (row : Z * Z) :
  row ∉ rows -> List.filter (fun r => bool_decide (r = row)) rows = [].
Proof.
  intros Hn. induction rows as [|r rows IH]; [done|].
  apply not_elem_of_cons in Hn as [Hne Hn].
  simpl. rewrite bool_decide_eq_false_2 by done. by apply IH.
Qed.

Lemma lookup_rows_variation_outside d q item v :
  (quota_id q, v) ∉ tbl_quota_variations d -> lookup_rows d q item (Some v) = 0%nat.
Proof.
  intros Hn. rewrite lookup_rows_with_variation, (filter_outside_nil _ _ Hn).
  simpl. lia.
Qed.

Lemma position_counted_per_joined_row_witness :
  counts_at (with_db (add_orderposition Sample.paid_S_red (db Sample.outlet))
                     Sample.outlet)
            0 Sample.quota5 2 0 0
  /\ counts_at (with_db (add_cartposition Sample.cart_S_red (db Sample.outlet))
                        Sample.outlet)
               0 Sample.quota5 0 0 2.
Proof.
  assert (counts_at Sample.outlet 0 Sample.quota5 0 0 0) as Hc.
  { eexists. split_and!; [reflexivity | | | ]; vm_compute; reflexivity. }
  destruct (position_counted_per_joined_row _ _ _ _ _ _ Hc) as (Hpaid & _ & Hcart).
  split.
  - exact (Hpaid Sample.paid_S_red eq_refl).
  - apply (Hcart Sample.cart_S_red). vm_compute. discriminate.
Defined.

(** One paid position of the shirt in the outlet is counted twice by the
    quota of its variation, and makes a capacity of 2 GONE. *)
Example availability_position_counted_twice :
  eval (count_orders Sample.quota5)
       (with_db (add_orderposition Sample.paid_S_red (db Sample.outlet)) Sample.outlet)
       0
  = Ok ({[ "paid" := Some 2; "pending" := Some 0 ]} : gmap string (option Z))
  /\ eval (availability {| quota_id := 3; size := Some 2 |})
          (with_db (add_orderposition Sample.paid_S_red (db Sample.outlet))
                   Sample.outlet)
          0
     = Ok (AVAILABILITY_GONE, Some 0).
Proof. split; vm_compute; reflexivity. Qed.

(** X6: a position that carries a variation counts toward a quota through
    the variation only: when the variation is not among the variations of
    the quota, the order position and the cart position add nothing to its
    counts, also when their item is among the items of the quota. *)
Theorem position_with_variation_outside_quota
    (e : Env) (n : nat) (q : Quota) (paid pending in_cart : Z) (v : Z) :
  counts_at e n q paid pending in_cart ->
  (quota_id q, v) ∉ tbl_quota_variations (db e) ->
  (forall r : OrderPosition,
     op_variation r = Some v ->
     counts_at (with_db (add_orderposition r (db e)) e) n q paid pending in_cart)
  /\ (forall r : CartPosition,
     cp_variation r = Some v ->
     counts_at (with_db (add_cartposition r (db e)) e) n q paid pending in_cart).
Proof.
  intros Hc Hv. apply counts_at_inv in Hc as (-> & -> & ->).
  assert (forall item, lookup_rows (db e) q item (Some v) = 0%nat) as Hl.
  { intros item. by apply lookup_rows_variation_outside. }
  split.
  - intros r Hr.
    pose proof (counts_at_intro (with_db (add_orderposition r (db e)) e) n q) as H.
    cbn [with_db db clock] in H.
    rewrite paidCount_add, pendingCount_add, cartCount_add_orderposition in H.
    rewrite Hr, Hl in H.
    destruct (counts_as_paid r), (counts_as_pending (clock e n) r);
      by rewrite !Z.add_0_r in H.
  - intros r Hr.
    pose proof (counts_at_intro (with_db (add_cartposition r (db e)) e) n q) as H.
    cbn [with_db db clock] in H.
    rewrite paidCount_add_cartposition, pendingCount_add_cartposition,
      cartCount_add in H.
    rewrite Hr, Hl in H.
    destruct (counts_in_cart (clock e (S n)) r); by rewrite !Z.add_0_r in H.
Qed.

Lemma position_with_variation_outside_quota_witness :
  (forall r : OrderPosition,
     op_variation r = Some 104 ->
     counts_at (with_db (add_orderposition r (db (Sample.world 1 1 1)))
                        (Sample.world 1 1 1))
               0 Sample.quota10 1 1 1)
  /\ (forall r : CartPosition,
     cp_variation r = Some 104 ->
     counts_at (with_db (add_cartposition r (db (Sample.world 1 1 1)))
                        (Sample.world 1 1 1))
               0 Sample.quota10 1 1 1).
Proof.
  apply (position_with_variation_outside_quota (Sample.world 1 1 1) 0
           Sample.quota10 1 1 1 104).
  - eexists. split_and!; [reflexivity | | | ]; vm_compute; reflexivity.
  - intros H.
    change (tbl_quota_variations (db (Sample.world 1 1 1)))
      with [(3, 101); (2, 101); (3, 102); (3, 103); (3, 105); (3, 106)] in H.
    rewrite !elem_of_cons in H.
    destruct H as [H|[H|[H|[H|[H|[H|H]]]]]]; try discriminate H.
    by apply elem_of_nil in H.
Defined.

(** ** check_quotas: further properties *)

Lemma mapM_availability_statuses (qs : list Quota) (results : list (Z * option Z)) e :
  Forall2 (fun q v => exists k, eval (availability q) e k = Ok v) qs results ->
  forall v, v ∈ results -> AVAILABILITY_GONE <= v.1 <= AVAILABILITY_OK.
Proof.
  intros Hall v Hv. apply list_elem_of_lookup in Hv as [i Hi].
  destruct (Forall2_lookup_r _ _ _ _ _ Hall Hi) as (q & _ & k & Hk).
  rewrite availability_eval in Hk. injection Hk as <-.
  destruct (size q) as [capacity|].
  - pose proof (ordered_subtraction_status capacity (paidCount (db e) q)
                  (pendingCount (db e) q (clock e k))
                  (cartCount (db e) q (clock e (S k)))) as Hin.
    unfold AVAILABILITY_GONE, AVAILABILITY_ORDERED, AVAILABILITY_RESERVED,
      AVAILABILITY_OK in *.
    rewrite !elem_of_cons in Hin.
    destruct Hin as [->|[->|[->|[->|Hin]]]]; [lia..|by apply elem_of_nil in Hin].
  - simpl. unfold AVAILABILITY_GONE, AVAILABILITY_OK. lia.
Qed.

Lemma py_min_status (qs : list Quota) (results : list (Z * option Z)) e n :
  qs <> [] ->
  Forall2 (fun q v => exists k, eval (availability q) e k = Ok v) qs results ->
  exists r,
    eval (py_min results) e n = Ok r
    /\ r ∈ results
    /\ (forall r', r' ∈ results -> r.1 <= r'.1)
    /\ (r.1 = AVAILABILITY_GONE <-> exists r', r' ∈ results /\ r'.1 = AVAILABILITY_GONE)
    /\ (r.1 = AVAILABILITY_OK <-> forall r', r' ∈ results -> r'.1 = AVAILABILITY_OK).
Proof.
  intros Hne Hall.
  pose proof (mapM_availability_statuses _ _ _ Hall) as Hrange.
  destruct results as [|v vs].
  { apply Forall2_nil_inv_r in Hall. contradiction. }
  exists (min_from v vs). split; [reflexivity|].
  pose proof (min_from_elem v vs) as Hin.
  assert (forall r', r' ∈ v :: vs -> (min_from v vs).1 <= r'.1) as Hmin.
  { intros r' Hr'. pose proof (min_from_least v vs r' Hr') as H.
    unfold tuple_le, min_key in H. simpl in H. lia. }
  split; [done|]. split; [done|]. split; split.
  - intros H. eauto.
  - intros (r' & Hr' & H). pose proof (Hmin r' Hr'). pose proof (Hrange _ Hin). lia.
  - intros H r' Hr'. pose proof (Hmin r' Hr'). pose proof (Hrange _ Hr'). lia.
  - intros H. by apply H.
Qed.

(** X7: whatever the capacities are, the status [check_quotas] returns on
    an item without properties, or on a variation, covered by at least one
    quota is the least status among the covering quotas: it is GONE as
    soon as one of them is GONE, and it is OK only if all of them are. *)
Theorem check_quotas_status_minimum (e : Env) (n : nat) :
  (forall self : Item,
     Item_properties_all (db e) self = [] ->
     Item_quotas_all (db e) self <> [] ->
     exists results r,
       eval (mapM availability (Item_quotas_all (db e) self)) e n = Ok results
       /\ eval (Item_check_quotas self) e n = Ok r
       /\ r ∈ results
       /\ (forall r', r' ∈ results -> r.1 <= r'.1)
       /\ (r.1 = AVAILABILITY_GONE <->
           exists r', r' ∈ results /\ r'.1 = AVAILABILITY_GONE)
       /\ (r.1 = AVAILABILITY_OK <->
           forall r', r' ∈ results -> r'.1 = AVAILABILITY_OK))
  /\ (forall self : ItemVariation,
     ItemVariation_quotas_all (db e) self <> [] ->
     exists results r,
       eval (mapM availability (ItemVariation_quotas_all (db e) self)) e n
       = Ok results
       /\ eval (ItemVariation_check_quotas self) e n = Ok r
       /\ r ∈ results
       /\ (forall r', r' ∈ results -> r.1 <= r'.1)
       /\ (r.1 = AVAILABILITY_GONE <->
           exists r', r' ∈ results /\ r'.1 = AVAILABILITY_GONE)
       /\ (r.1 = AVAILABILITY_OK <->
           forall r', r' ∈ results -> r'.1 = AVAILABILITY_OK)).
Proof.
  split.
  - intros self Hprops Hne.
    destruct (mapM_availability_run (Item_quotas_all (db e) self) e n)
      as (results & n' & Hrun & Hall).
    destruct (py_min_status _ _ e n' Hne Hall) as (r & Hr & Hrest).
    exists results, r. split; [unfold eval; by rewrite Hrun|]. split; [|done].
    unfold eval. rewrite Item_check_quotas_run, Hprops.
    cbn [length Z.of_nat Z.ltb Z.compare].
    by rewrite (bind_Ok _ _ _ _ _ _ Hrun).
  - intros self Hne.
    destruct (mapM_availability_run (ItemVariation_quotas_all (db e) self) e n)
      as (results & n' & Hrun & Hall).
    destruct (py_min_status _ _ e n' Hne Hall) as (r & Hr & Hrest).
    exists results, r. split; [unfold eval; by rewrite Hrun|]. split; [|done].
    unfold eval. rewrite ItemVariation_check_quotas_run.
    by rewrite (bind_Ok _ _ _ _ _ _ Hrun).
Qed.

(** ** Item.is_available: further properties *)

(** X8: on a clock that does not run backwards, an item whose
    [available_until] lies before its [available_from] is never available;
    an item that is not active is not available, and the clock is not
    read for it. *)
Theorem is_available_never (e : Env) (n : nat) (self : Item) :
  (forall from until,
     available_from self = Some from -> available_until self = Some until ->
     until < from -> clock e n <= clock e (S n) ->
     eval (is_available self) e n = Ok false)
  /\ (active self = false -> is_available self e n = (Ok false, n)).
Proof.
  split.
  - intros from until Hf Hu Hlt Hmono.
    rewrite is_available_eval, Hf, Hu. f_equal.
    destruct (active self); [|done]. cbn [andb].
    destruct (Z.leb_spec from (clock e n)); [|done]. cbn [andb].
    destruct (Z.leb_spec (clock e (S n)) until); [lia|done].
  - intros Ha. unfold is_available. by rewrite Ha.
Qed.

(** ** Variations: further properties *)

Lemma product_length {A} (pools : list (list A)) :
  length (product pools)
  = foldr (fun pool acc => (length pool * acc)%nat) 1%nat pools.
Proof.
  induction pools as [|pool pools IH]; [done|].
  simpl. rewrite (flat_map_constant_length (c := length (product pools))).
  - by rewrite IH.
  - intros x _. apply length_map.
Qed.

Lemma product_values_in_table d (props : list Property) (comb : list PropertyValue) :
  In comb (product (map (Property_values_all d) props)) ->
  forall v, v ∈ comb -> v ∈ tbl_propertyvalue d.
Proof.
  revert comb. induction props as [|p props IH]; intros comb H v Hv.
  - simpl in H. destruct H as [<-|[]]. by apply elem_of_nil in Hv.
  - simpl in H. apply in_flat_map in H as (x & Hx & H).
    apply in_map_iff in H as (c & <- & Hc).
    apply elem_of_cons in Hv as [->|Hv]; [|by eapply IH].
    unfold Property_values_all, order_by_position in Hx.
    apply list_elem_of_In in Hx. rewrite merge_sort_Permutation in Hx.
    apply list_elem_of_In, filter_In in Hx as [Hx _]. by apply list_elem_of_In.
Qed.

Lemma foldl_setitem_lookup (l : list PropertyValue) (vd : VariationDict) p v :
  vd_values (foldl (fun var v => setitem (prop_id v) v var) vd l) !! p = Some v ->
  (v ∈ l /\ prop_id v = p) \/ vd_values vd !! p = Some v.
Proof.
  revert vd. induction l as [|x l IH]; intros vd H; [by right|].
  simpl in H. destruct (IH _ H) as [[Hin Hp]|Hm].
  - left. split; [by apply elem_of_cons; right | done].
  - simpl in Hm. apply lookup_insert_Some in Hm as [[Hk ->]|[_ Hm]].
    + left. split; [apply elem_of_cons; by left | done].
    + by right.
Qed.

Lemma foldl_setitem_dom (l : list PropertyValue) (vd : VariationDict) :
  dom (vd_values (foldl (fun var v => setitem (prop_id v) v var) vd l))
  = dom (vd_values vd) ∪ list_to_set (map prop_id l).
Proof.
  revert vd. induction l as [|x l IH]; intros vd.
  - simpl. set_solver.
  - simpl. rewrite IH. simpl. rewrite dom_insert_L. set_solver.
Qed.

Lemma foldl_setitem_untouched (l : list PropertyValue) (vd : VariationDict) p :
  p ∉ map prop_id l ->
  vd_values (foldl (fun var v => setitem (prop_id v) v var) vd l) !! p
  = vd_values vd !! p.
Proof.
  revert vd. induction l as [|x l IH]; intros vd Hp; [done|].
  simpl in *. apply not_elem_of_cons in Hp as [Hne Hp].
  rewrite IH by done. simpl. by rewrite lookup_insert_ne.
Qed.

Lemma foldl_setitem_round_trip (l : list PropertyValue) (vd : VariationDict) v :
  NoDup (map prop_id l) -> v ∈ l ->
  vd_values (foldl (fun var v => setitem (prop_id v) v var) vd l) !! prop_id v
  = Some v.
Proof.
  revert vd. induction l as [|x l IH]; intros vd Hnd Hv.
  - by apply elem_of_nil in Hv.
  - simpl in *. apply NoDup_cons in Hnd as [Hx Hnd].
    apply elem_of_cons in Hv as [->|Hv]; [|by apply IH].
    rewrite foldl_setitem_untouched by done. simpl. apply lookup_insert_eq.
Qed.

Lemma comb_to_dict_values cache comb :
  vd_values (comb_to_dict cache comb)
  = vd_values (foldl (fun var v => setitem (prop_id v) v var) VariationDict_new comb)
  /\ vd_available (comb_to_dict cache comb) = None
  /\ vd_price (comb_to_dict cache comb) = None.
Proof.
  unfold comb_to_dict.
  destruct (foldl_setitem_variation comb VariationDict_new) as (_ & Ha & Hp).
  case_bool_decide as Hlen.
  - destruct comb; [done | discriminate Hlen].
  - by destruct (cache !! key_of comb).
Qed.

(** X9: [get_all_variations] returns as many combinations as the product
    of the numbers of values of the properties of the item; it returns
    none as soon as one property has no value.  A call with [use_cache]
    answers from an attribute that is current. *)
Theorem get_all_variations_count (d : Db) (self : Item) (use_cache : bool) :
  cache_current use_cache (_get_all_variations_cache self)
                (all_variations_computed d self) ->
  length (get_all_variations d self use_cache).1
  = foldr (fun prop acc => (length (Property_values_all d prop) * acc)%nat) 1%nat
          (Item_properties_all d self)
  /\ ((exists prop, prop ∈ Item_properties_all d self
                    /\ Property_values_all d prop = []) ->
      (get_all_variations d self use_cache).1 = []).
Proof.
  intros Hc. rewrite (get_all_variations_computed _ _ _ Hc).
  unfold all_variations_computed. rewrite length_map, product_length.
  assert (foldr (fun pool acc => (length pool * acc)%nat) 1%nat
                (map (Property_values_all d) (Item_properties_all d self))
          = foldr (fun prop acc => (length (Property_values_all d prop) * acc)%nat)
                  1%nat (Item_properties_all d self)) as Heq.
  { induction (Item_properties_all d self) as [|p ps IH]; [done|].
    simpl. by rewrite IH. }
  split; [exact Heq|].
  intros (prop & Hin & Hnil).
  apply length_zero_iff_nil. rewrite length_map, product_length, Heq.
  clear Heq. induction (Item_properties_all d self) as [|p ps IH].
  - by apply elem_of_nil in Hin.
  - simpl. apply elem_of_cons in Hin as [<-|Hin].
    + by rewrite Hnil.
    + rewrite (IH Hin). lia.
Qed.

Lemma get_all_variations_count_witness :
  length (get_all_variations (Sample.shop 0 0 0) Sample.shirt false).1
  = foldr (fun prop acc =>
             (length (Property_values_all (Sample.shop 0 0 0) prop) * acc)%nat)
          1%nat (Item_properties_all (Sample.shop 0 0 0) Sample.shirt)
  /\ ((exists prop, prop ∈ Item_properties_all (Sample.shop 0 0 0) Sample.shirt
                    /\ Property_values_all (Sample.shop 0 0 0) prop = []) ->
      (get_all_variations (Sample.shop 0 0 0) Sample.shirt false).1 = []).
Proof.
  apply (get_all_variations_count (Sample.shop 0 0 0) Sample.shirt false).
  intros H. discriminate H.
Defined.

(** X10: every combination [get_all_variations] returns has exactly the
    properties of the item as its integer keys, holds under each of them
    a value of that property, and has no ['available'] and no ['price']
    entry.  A call with [use_cache] answers from an attribute that is
    current. *)
Theorem get_all_variations_entries
    (d : Db) (self : Item) (use_cache : bool) (vd : VariationDict) :
  cache_current use_cache (_get_all_variations_cache self)
                (all_variations_computed d self) ->
  vd ∈ (get_all_variations d self use_cache).1 ->
  dom (vd_values vd) = current_properties d self
  /\ (forall p v, vd_values vd !! p = Some v ->
                  prop_id v = p /\ v ∈ tbl_propertyvalue d)
  /\ vd_available vd = None /\ vd_price vd = None.
Proof.
  intros Hc Hin. rewrite (get_all_variations_computed _ _ _ Hc) in Hin.
  unfold all_variations_computed in Hin.
  apply list_elem_of_In, in_map_iff in Hin as (comb & <- & Hcomb).
  destruct (comb_to_dict_values
              (variations_cache d (Item_variations_all d self)) comb)
    as (Hv & Ha & Hp).
  rewrite Hv. split_and!; [| |done|done].
  - rewrite foldl_setitem_dom. unfold current_properties.
    rewrite <- (product_prop_ids _ _ _ Hcomb). simpl. set_solver.
  - intros p v Hl. apply foldl_setitem_lookup in Hl as [[Hvin Hpv]|Hl].
    + split; [done|]. by eapply product_values_in_table.
    + simpl in Hl. by rewrite lookup_empty in Hl.
Qed.

Lemma get_all_variations_entries_witness :
  Forall (fun vd =>
            dom (vd_values vd) = current_properties (Sample.shop 0 0 0) Sample.shirt
            /\ (forall p v, vd_values vd !! p = Some v ->
                  prop_id v = p /\ v ∈ tbl_propertyvalue (Sample.shop 0 0 0))
            /\ vd_available vd = None /\ vd_price vd = None)
         (get_all_variations (Sample.shop 0 0 0) Sample.shirt false).1.
Proof.
  apply Forall_forall. intros vd Hin.
  apply (get_all_variations_entries (Sample.shop 0 0 0) Sample.shirt false vd).
  - intros H. discriminate H.
  - exact Hin.
Defined.

Lemma tuple_le_Transitive : Transitive tuple_le.
Proof. intros a b c. apply tuple_le_trans. Qed.

Lemma tuple_le_AntiSymm : AntiSymm (=) tuple_le.
Proof.
  intros [a1 a2] [b1 b2]. unfold tuple_le. simpl. intros H1 H2.
  f_equal; lia.
Qed.

Lemma tuple_le_Total : Total tuple_le.
Proof. intros [a1 a2] [b1 b2]. unfold tuple_le. simpl. lia. Qed.

(** [sorted] gives one list for all the orders its input can come in. *)
Lemma sorted_Permutation (a b : list (Z * Z)) : a ≡ₚ b -> sorted a = sorted b.
Proof.
  intros H. unfold sorted.
  apply (@Sorted_unique _ tuple_le tuple_le_Transitive tuple_le_AntiSymm).
  - apply (@Sorted_merge_sort _ tuple_le _ tuple_le_Total).
  - apply (@Sorted_merge_sort _ tuple_le _ tuple_le_Total).
  - by rewrite !merge_sort_Permutation.
Qed.

Lemma key_of_same_values (a b : list PropertyValue) : a ≡ₚ b -> key_of a = key_of b.
Proof.
  intros H. unfold key_of. apply sorted_Permutation.
  by apply Permutation_map.
Qed.

Lemma ItemVariation_values_all_in_table d var v :
  v ∈ ItemVariation_values_all d var -> v ∈ tbl_propertyvalue d.
Proof.
  unfold ItemVariation_values_all, order_by_position. intros H.
  rewrite merge_sort_Permutation in H.
  apply list_elem_of_In, filter_In in H as [H _]. by apply list_elem_of_In.
Qed.

Lemma Property_values_all_elem d p v :
  v ∈ tbl_propertyvalue d -> prop_id v = property_id p ->
  In v (Property_values_all d p).
Proof.
  intros Hv Hp. unfold Property_values_all, order_by_position.
  apply list_elem_of_In. rewrite merge_sort_Permutation.
  apply list_elem_of_In, filter_In. split; [by apply list_elem_of_In|].
  by apply bool_decide_eq_true.
Qed.

(** Values that are one per property can be ordered as a combination. *)
Lemma product_complete d (props : list Property) (vals : list PropertyValue) :
  map prop_id vals ≡ₚ map property_id props ->
  (forall v, v ∈ vals -> v ∈ tbl_propertyvalue d) ->
  exists comb, In comb (product (map (Property_values_all d) props))
               /\ comb ≡ₚ vals.
Proof.
  revert vals. induction props as [|p props IH]; intros vals Hperm Hin.
  - simpl in Hperm. apply Permutation_nil_r in Hperm.
    destruct vals; [|discriminate Hperm].
    exists []. split; [by left | done].
  - assert (property_id p ∈ map prop_id vals) as Hp.
    { rewrite Hperm. simpl. apply elem_of_cons. by left. }
    apply list_elem_of_In, in_map_iff in Hp as (v & Hpv & Hv).
    apply list_elem_of_In, elem_of_Permutation in Hv as [vals' Hvals].
    assert (map prop_id vals' ≡ₚ map property_id props) as Hperm'.
    { apply (Permutation_map prop_id) in Hvals. rewrite Hvals in Hperm.
      simpl in Hperm. rewrite Hpv in Hperm.
      by apply Permutation_cons_inv in Hperm. }
    destruct (IH vals' Hperm') as (comb & Hcomb & Hc).
    { intros w Hw. apply Hin. rewrite Hvals. apply elem_of_cons. by right. }
    exists (v :: comb). split.
    + simpl. apply in_flat_map. exists v. split.
      * apply Property_values_all_elem; [|done].
        apply Hin. rewrite Hvals. apply elem_of_cons. by left.
      * apply in_map_iff. by exists comb.
    + rewrite Hvals. by constructor.
Qed.

Lemma variations_cache_member d (l : list ItemVariation) var :
  var ∈ l ->
  is_Some (variations_cache d l !! key_of (ItemVariation_values_all d var)).
Proof.
  unfold variations_cache.
  set (k := key_of (ItemVariation_values_all d var)).
  assert (forall m : gmap (list (Z * Z)) ItemVariation,
    var ∈ l \/ is_Some (m !! k) ->
    is_Some (foldl (fun cache v =>
                      <[key_of (ItemVariation_values_all d v) := v]> cache) m l
             !! k)) as Hgen.
  { induction l as [|x l IH]; intros m [Hin|Hm].
    - by apply elem_of_nil in Hin.
    - done.
    - simpl. apply IH. apply elem_of_cons in Hin as [->|Hin]; [|by left].
      right. unfold k. rewrite lookup_insert_eq. eauto.
    - simpl. apply IH. right. apply lookup_insert_is_Some'. by right. }
  intros Hin. apply Hgen. by left.
Qed.

(** X11: for an item with at least one property, a variation of the item
    whose values are one per property of the item, and whose set of values
    no other variation of the item has, is attached to a combination that
    [get_all_variations] returns.  A call with [use_cache] answers from an
    attribute that is current. *)
Theorem get_all_variations_attaches_valid
    (d : Db) (self : Item) (use_cache : bool) (var : ItemVariation) :
  cache_current use_cache (_get_all_variations_cache self)
                (all_variations_computed d self) ->
  Item_properties_all d self <> [] ->
  var ∈ Item_variations_all d self ->
  covers_exactly d self var ->
  (forall var', var' ∈ Item_variations_all d self ->
     key_of (ItemVariation_values_all d var')
     = key_of (ItemVariation_values_all d var) -> var' = var) ->
  exists vd, vd ∈ (get_all_variations d self use_cache).1
             /\ vd_variation vd = Some var.
Proof.
  intros Hc Hprops Hvar Hcov Huniq.
  rewrite (get_all_variations_computed _ _ _ Hc).
  destruct (product_complete d (Item_properties_all d self)
              (ItemVariation_values_all d var) Hcov) as (comb & Hcomb & Hperm).
  { intros v. apply ItemVariation_values_all_in_table. }
  exists (comb_to_dict (variations_cache d (Item_variations_all d self)) comb).
  split.
  - unfold all_variations_computed. apply list_elem_of_In, in_map_iff. eauto.
  - unfold comb_to_dict. case_bool_decide as Hlen.
    + apply product_prop_ids in Hcomb. destruct comb; [|discriminate Hlen].
      destruct (Item_properties_all d self); [done | discriminate Hcomb].
    + rewrite (key_of_same_values _ _ Hperm).
      destruct (variations_cache_member d _ _ Hvar) as [var' Hl].
      rewrite Hl. simpl. f_equal.
      apply variations_cache_lookup in Hl as [Hin Hkey]. by apply Huniq.
Qed.

Lemma get_all_variations_attaches_valid_witness :
  exists vd, vd ∈ (get_all_variations (Sample.shop 0 0 0) Sample.shirt false).1
             /\ vd_variation vd = Some Sample.S_red.
Proof.
  apply (get_all_variations_attaches_valid (Sample.shop 0 0 0) Sample.shirt false
           Sample.S_red).
  - intros H. discriminate H.
  - intros H. vm_compute in H. discriminate H.
  - change (Item_variations_all (Sample.shop 0 0 0) Sample.shirt)
      with [Sample.S_red; Sample.S_M_red; Sample.M_only; Sample.M_blue;
            Sample.M_red; Sample.S_red_cut].
    apply elem_of_cons. by left.
  - unfold covers_exactly.
    change (map prop_id (ItemVariation_values_all (Sample.shop 0 0 0) Sample.S_red))
      with [1; 2].
    change (map property_id (Item_properties_all (Sample.shop 0 0 0) Sample.shirt))
      with [1; 2].
    reflexivity.
  - intros var' Hin Hkey.
    change (Item_variations_all (Sample.shop 0 0 0) Sample.shirt)
      with [Sample.S_red; Sample.S_M_red; Sample.M_only; Sample.M_blue;
            Sample.M_red; Sample.S_red_cut] in Hin.
    rewrite !elem_of_cons in Hin.
    destruct Hin as [->|[->|[->|[->|[->|[->|Hin]]]]]];
      [reflexivity | vm_compute in Hkey; discriminate Hkey ..
       | by apply elem_of_nil in Hin].
Defined.

(** X12: a call of [get_all_variations] or
    [get_all_available_variations] leaves its result on the instance; a
    later call with [use_cache=True] returns that same result and leaves
    the instance as it is, whatever the database holds by then; a later
    call with [use_cache=False] computes afresh from the database.  Each
    method sets its own attribute only. *)
Theorem variations_cache_reuse (d d' : Db) (self : Item) (use_cache : bool) :
  get_all_variations d' (get_all_variations d self use_cache).2 true
  = get_all_variations d self use_cache
  /\ (get_all_variations d' (get_all_variations d self use_cache).2 false).1
     = all_variations_computed d' self
  /\ get_all_available_variations d'
       (get_all_available_variations d self use_cache).2 true
     = get_all_available_variations d self use_cache
  /\ (get_all_available_variations d'
        (get_all_available_variations d self use_cache).2 false).1
     = all_available_variations_computed d' self
  /\ _get_all_available_variations_cache (get_all_variations d self use_cache).2
     = _get_all_available_variations_cache self
  /\ _get_all_variations_cache (get_all_available_variations d self use_cache).2
     = _get_all_variations_cache self.
Proof.
  unfold get_all_variations, get_all_available_variations.
  destruct use_cache;
    destruct (_get_all_variations_cache self) as [r|] eqn:Hr;
    destruct (_get_all_available_variations_cache self) as [r'|] eqn:Hr';
    simpl; rewrite ?Hr, ?Hr'; by split_and!.
Qed.

(** X13: every combination [get_all_available_variations] returns is
    marked available; when it carries a variation, the variation is active
    and the price is the price of the variation, or the default price of
    the item when the variation has none; when it carries no variation,
    the item has no properties and the price is the default price of the
    item.  A call with [use_cache] answers from an attribute that is
    current. *)
Theorem available_variations_price
    (d : Db) (self : Item) (use_cache : bool) (vd : VariationDict) :
  cache_current use_cache (_get_all_available_variations_cache self)
                (all_available_variations_computed d self) ->
  vd ∈ (get_all_available_variations d self use_cache).1 ->
  vd_available vd = Some true
  /\ match vd_variation vd with
     | Some var =>
         iv_active var = true
         /\ vd_price vd = Some match iv_default_price var with
                               | Some p => Some p
                               | None => default_price self
                               end
     | None =>
         Item_properties_all d self = []
         /\ vd_price vd = Some (default_price self)
     end.
Proof.
  intros Hc Hin. rewrite (get_all_available_variations_computed _ _ _ Hc) in Hin.
  apply all_available_variations_computed_inv in Hin as (vd0 & H0 & -> & Hflag).
  unfold available_flag, set_available_and_price in *. simpl in *.
  apply generated_variations_inv in H0 as [[Hp ->]|(_ & var & Hv & _)].
  - simpl. by split_and!.
  - rewrite Hv in *. destruct (iv_active var); [|discriminate Hflag].
    by split_and!.
Qed.

Lemma available_variations_price_witness :
  Forall (fun vd =>
            vd_available vd = Some true
            /\ match vd_variation vd with
               | Some var =>
                   iv_active var = true
                   /\ vd_price vd = Some match iv_default_price var with
                                         | Some p => Some p
                                         | None => default_price Sample.shirt
                                         end
               | None =>
                   Item_properties_all (Sample.shop 0 0 0) Sample.shirt = []
                   /\ vd_price vd = Some (default_price Sample.shirt)
               end)
         (get_all_available_variations (Sample.shop 0 0 0) Sample.shirt false).1.
Proof.
  apply Forall_forall. intros vd Hin.
  apply (available_variations_price (Sample.shop 0 0 0) Sample.shirt false vd).
  - intros H. discriminate H.
  - exact Hin.
Defined.

Lemma in_some_quota_qc d var : in_some_quota d var -> 0 < qc d var.
Proof.
  intros [q Hq]. unfold qc.
  assert (In (q, iv_id var)
             (List.filter (fun r => bool_decide (r.2 = iv_id var))
                          (tbl_quota_variations d))) as Hin.
  { apply filter_In. split; [by apply list_elem_of_In|].
    by apply bool_decide_eq_true. }
  destruct (List.filter _ _); [destruct Hin | simpl; lia].
Qed.

(** X14: for an item with at least one property,
    [get_all_available_variations] returns every variation of the item
    that is active, is in at least one quota, and whose values refer to
    exactly the properties of the item: the combination returned for it is
    its [to_variation_dict] with the availability and the price added.  A
    call with [use_cache] answers from an attribute that is current. *)
Theorem available_variations_complete
    (d : Db) (self : Item) (use_cache : bool) (var : ItemVariation) :
  cache_current use_cache (_get_all_available_variations_cache self)
                (all_available_variations_computed d self) ->
  Item_properties_all d self <> [] ->
  var ∈ Item_variations_all d self ->
  iv_active var = true ->
  in_some_quota d var ->
  referenced_properties d var = current_properties d self ->
  set_available_and_price self (to_variation_dict d var)
  ∈ (get_all_available_variations d self use_cache).1.
Proof.
  intros Hc Hprops Hvar Hact Hq Hset.
  rewrite (get_all_available_variations_computed _ _ _ Hc).
  unfold all_available_variations_computed.
  apply list_elem_of_In, filter_In. split.
  - apply in_map. unfold _get_all_generated_variations. cbv zeta.
    change (list_to_set (map property_id (Item_properties_all d self)))
      with (current_properties d self).
    rewrite bool_decide_eq_false_2 by (by rewrite current_properties_empty).
    apply in_flat_map. exists var. split.
    + apply filter_In. split; [by apply list_elem_of_In|].
      by apply Z.ltb_lt, in_some_quota_qc.
    + change (list_to_set (map prop_id (ItemVariation_values_all d var)))
        with (referenced_properties d var).
      rewrite bool_decide_eq_false_2 by (intros H; by apply H).
      by left.
  - unfold available_flag, set_available_and_price, to_variation_dict. simpl.
    exact Hact.
Qed.

Lemma available_variations_complete_witness :
  set_available_and_price Sample.shirt
    (to_variation_dict (Sample.shop 0 0 0) Sample.S_red)
  ∈ (get_all_available_variations (Sample.shop 0 0 0) Sample.shirt false).1.
Proof.
  apply (available_variations_complete (Sample.shop 0 0 0) Sample.shirt false
           Sample.S_red).
  - intros H. discriminate H.
  - intros H. vm_compute in H. discriminate H.
  - change (Item_variations_all (Sample.shop 0 0 0) Sample.shirt)
      with [Sample.S_red; Sample.S_M_red; Sample.M_only; Sample.M_blue;
            Sample.M_red; Sample.S_red_cut].
    apply elem_of_cons. by left.
  - reflexivity.
  - exists 3.
    change (tbl_quota_variations (Sample.shop 0 0 0))
      with [(3, 101); (2, 101); (3, 102); (3, 103); (3, 105); (3, 106)].
    apply elem_of_cons. by left.
  - apply set_eq. intros p. unfold referenced_properties, current_properties.
    change (map prop_id (ItemVariation_values_all (Sample.shop 0 0 0) Sample.S_red))
      with [1; 2].
    change (map property_id (Item_properties_all (Sample.shop 0 0 0) Sample.shirt))
      with [1; 2].
    reflexivity.
Defined.

(** X15: the dictionary [to_variation_dict] builds holds the variation
    itself under ['variation'] and neither ['available'] nor ['price'];
    its integer keys are the properties the values of the variation refer
    to, each with a value of the variation of that property; when the
    values are of distinct properties, every value is found under its
    property. *)
Theorem to_variation_dict_entries (d : Db) (self : ItemVariation) :
  vd_variation (to_variation_dict d self) = Some self
  /\ vd_available (to_variation_dict d self) = None
  /\ vd_price (to_variation_dict d self) = None
  /\ dom (vd_values (to_variation_dict d self)) = referenced_properties d self
  /\ (forall p v, vd_values (to_variation_dict d self) !! p = Some v ->
        prop_id v = p /\ v ∈ ItemVariation_values_all d self)
  /\ (NoDup (map prop_id (ItemVariation_values_all d self)) ->
      forall v, v ∈ ItemVariation_values_all d self ->
        vd_values (to_variation_dict d self) !! prop_id v = Some v).
Proof.
  unfold to_variation_dict. cbv zeta. simpl.
  destruct (foldl_setitem_variation (ItemVariation_values_all d self)
              VariationDict_new) as (_ & Ha & Hp).
  split_and!; [done | done | done | | | ].
  - rewrite foldl_setitem_dom. unfold referenced_properties. simpl. set_solver.
  - intros p v Hl. apply foldl_setitem_lookup in Hl as [[Hin Hpv]|Hl]; [done|].
    simpl in Hl. by rewrite lookup_empty in Hl.
  - intros Hnd v Hv. by apply foldl_setitem_round_trip.
Qed.

(** ** Sort keys *)

Lemma tuple_ltb_irrefl a : tuple_ltb a a = false.
Proof. apply tuple_ltb_false, tuple_le_refl. Qed.

Lemma tuple_ltb_trans a b c :
  tuple_ltb a b = true -> tuple_ltb b c = true -> tuple_ltb a c = true.
Proof.
  destruct a as [a1 a2], b as [b1 b2], c as [c1 c2]. unfold tuple_ltb. simpl.
  rewrite !orb_true_iff, !andb_true_iff, !Z.ltb_lt, !Z.eqb_eq. lia.
Qed.

Lemma tuple_ltb_asym a b : tuple_ltb a b = true -> tuple_ltb b a = false.
Proof.
  intros H. apply tuple_ltb_false. by apply tuple_ltb_true.
Qed.

Lemma tuple_ltb_total a b : a <> b -> tuple_ltb a b = true \/ tuple_ltb b a = true.
Proof.
  destruct a as [a1 a2], b as [b1 b2]. unfold tuple_ltb. simpl. intros Hne.
  rewrite !orb_true_iff, !andb_true_iff, !Z.ltb_lt, !Z.eqb_eq.
  assert (a1 <> b1 \/ a2 <> b2) by (destruct (decide (a1 = b1)); [right|left]; congruence).
  lia.
Qed.

(** X16: [__lt__] of [PropertyValue] and of [ItemCategory] is a strict
    total order on the sort keys (position, id): no row is below itself,
    the relation is transitive, never holds in both directions, and holds
    in one direction between two rows whose sort keys differ. *)
Theorem sortkey_strict_total_order :
  ((forall a, PropertyValue_lt a a = false)
   /\ (forall a b c, PropertyValue_lt a b = true -> PropertyValue_lt b c = true ->
                     PropertyValue_lt a c = true)
   /\ (forall a b, PropertyValue_lt a b = true -> PropertyValue_lt b a = false)
   /\ (forall a b, PropertyValue_sortkey a <> PropertyValue_sortkey b ->
                   PropertyValue_lt a b = true \/ PropertyValue_lt b a = true))
  /\ ((forall a, ItemCategory_lt a a = false)
      /\ (forall a b c, ItemCategory_lt a b = true -> ItemCategory_lt b c = true ->
                        ItemCategory_lt a c = true)
      /\ (forall a b, ItemCategory_lt a b = true -> ItemCategory_lt b a = false)
      /\ (forall a b, ItemCategory_sortkey a <> ItemCategory_sortkey b ->
                      ItemCategory_lt a b = true \/ ItemCategory_lt b a = true)).
Proof.
  unfold PropertyValue_lt, ItemCategory_lt. split; split_and!.
  - intros a. apply tuple_ltb_irrefl.
  - intros a b c. apply tuple_ltb_trans.
  - intros a b. apply tuple_ltb_asym.
  - intros a b. apply tuple_ltb_total.
  - intros a. apply tuple_ltb_irrefl.
  - intros a b c. apply tuple_ltb_trans.
  - intros a b. apply tuple_ltb_asym.
  - intros a b. apply tuple_ltb_total.
Qed.

Lemma sortkey_le_Transitive : Transitive sortkey_le.
Proof. intros a b c. unfold sortkey_le. lia. Qed.

Lemma sortkey_le_Total : Total sortkey_le.
Proof. intros a b. unfold sortkey_le. lia. Qed.

Lemma StronglySorted_lookup_le {A} (R : relation A) (l : list A) i j a b :
  StronglySorted R l -> (i < j)%nat ->
  l !! i = Some a -> l !! j = Some b -> R a b.
Proof.
  intros Hs. revert i j. induction Hs as [|x l Hs IH Hall]; intros i j Hij Hi Hj.
  - by rewrite lookup_nil in Hi.
  - destruct j as [|j]; [lia|]. destruct i as [|i].
    + injection Hi as <-. simpl in Hj.
      rewrite Forall_forall in Hall. apply Hall.
      apply list_elem_of_lookup. eauto.
    + simpl in Hi, Hj. apply (IH i j); [lia | done | done].
Qed.

Lemma order_by_position_sorted (l : list PropertyValue) i j a b :
  (i < j)%nat ->
  order_by_position l !! i = Some a -> order_by_position l !! j = Some b ->
  PropertyValue_lt b a = false.
Proof.
  intros Hij Hi Hj. unfold PropertyValue_lt. apply tuple_ltb_false.
  change (sortkey_le a b).
  eapply (StronglySorted_lookup_le sortkey_le); [|exact Hij|exact Hi|exact Hj].
  apply (@StronglySorted_merge_sort _ sortkey_le _ sortkey_le_Transitive
           sortkey_le_Total).
Qed.

(** X17: the values [prop.values.all()] and [var.values.all()] return come
    in the order of [PropertyValue.__lt__]: a value is never below one that
    comes before it in the list; and the lists hold the selected rows, no
    more and no fewer. *)
Theorem values_all_sorted (d : Db) :
  (forall prop i j a b,
     (i < j)%nat ->
     Property_values_all d prop !! i = Some a ->
     Property_values_all d prop !! j = Some b ->
     PropertyValue_lt b a = false)
  /\ (forall var i j a b,
     (i < j)%nat ->
     ItemVariation_values_all d var !! i = Some a ->
     ItemVariation_values_all d var !! j = Some b ->
     PropertyValue_lt b a = false)
  /\ (forall prop,
     Property_values_all d prop
     ≡ₚ List.filter (fun v => bool_decide (prop_id v = property_id prop))
                    (tbl_propertyvalue d))
  /\ (forall var,
     ItemVariation_values_all d var
     ≡ₚ List.filter
          (fun v => bool_decide ((iv_id var, pv_id v) ∈ tbl_itemvariation_values d))
          (tbl_propertyvalue d)).
Proof.
  split_and!.
  - intros prop i j a b. apply order_by_position_sorted.
  - intros var i j a b. apply order_by_position_sorted.
  - intros prop. apply merge_sort_Permutation.
  - intros var. apply merge_sort_Permutation.
Qed.

(** ** itempicture_upload_to *)

Lemma split_last (sep : ascii) (s : string) :
  exists w ws,
    split sep s = w :: ws
    /\ ((ws = [] /\ s = w /\ ~ In sep (String.list_ascii_of_string w))
        \/ (ws <> []
            /\ ~ In sep (String.list_ascii_of_string (List.last ws EmptyString))
            /\ exists stem, s = stem +:+ String sep (List.last ws EmptyString))).
Proof.
  induction s as [|c s IH].
  - exists EmptyString, []. split; [done|]. left. split_and!; [done | done | intros []].
  - destruct IH as (w & ws & Hsplit & IH). cbn [split]. rewrite Hsplit.
    destruct (Ascii.eqb_spec c sep) as [->|Hne].
    + exists EmptyString, (w :: ws). split; [done|]. right.
      split; [done|].
      destruct IH as [(-> & -> & Hno)|(Hws & Hno & stem & ->)].
      * split; [done|]. by exists EmptyString.
      * destruct ws as [|w' ws]; [done|].
        split; [done|]. by exists (String sep stem).
    + exists (String c w), ws. split; [done|].
      destruct IH as [(-> & -> & Hno)|(Hws & Hno & stem & ->)].
      * left. split_and!; [done | done |]. simpl. intros [H|H]; [by subst|done].
      * right. split_and!; [done | done |]. by exists (String c stem).
Qed.

(** X18: the path [itempicture_upload_to] builds is
    organizer/event/item-id.ext, where ext is what follows the last dot of
    the file name: ext holds no dot, and the file name is either ext
    itself (a name without a dot is taken whole) or some stem, a dot and
    ext; the rest of the file name does not enter the path. *)
Theorem itempicture_upload_to_extension
    (organizer_slug event_slug : string) (id : option Z) (filename : string) :
  exists ext,
    itempicture_upload_to organizer_slug event_slug id filename
    = organizer_slug +:+ "/" +:+ event_slug +:+ "/item-" +:+ str_id id
      +:+ "." +:+ ext
    /\ ~ In "."%char (String.list_ascii_of_string ext)
    /\ (filename = ext \/ exists stem, filename = stem +:+ "." +:+ ext).
Proof.
  unfold itempicture_upload_to, last_piece.
  destruct (split_last "."%char filename) as (w & ws & Hsplit & H).
  rewrite Hsplit.
  destruct H as [(-> & -> & Hno)|(Hws & Hno & stem & ->)].
  - exists w. split_and!; [done | done | by left].
  - exists (List.last ws EmptyString). split_and!; [| done | right; by exists stem].
    destruct ws as [|w' ws]; [done|]. reflexivity.
Qed.

Example itempicture_upload_to_examples :
  itempicture_upload_to "org" "conf" (Some 7) "photo.final.png"
  = "org/conf/item-7.png"
  /\ itempicture_upload_to "org" "conf" None "README" = "org/conf/item-None.README"
  /\ itempicture_upload_to "org" "conf" (Some 7) "photo." = "org/conf/item-7.".
Proof. split_and!; vm_compute; reflexivity. Qed.

(** ** ItemVariation.add_values_from_string *)

Lemma split_cons (sep : ascii) (s : string) : exists w ws, split sep s = w :: ws.
Proof. destruct (split_last sep s) as (w & ws & H & _). eauto. Qed.

Lemma split_app (sep : ascii) (a b : string) :
  split sep (a +:+ String sep b) = split sep a ++ split sep b.
Proof.
  induction a as [|c a IH].
  - simpl. by rewrite Ascii.eqb_refl.
  - change (String c a +:+ String sep b) with (String c (a +:+ String sep b)).
    cbn [split]. rewrite IH.
    destruct (Ascii.eqb c sep); [done|].
    by destruct (split_cons sep a) as (w & ws & ->).
Qed.

Lemma add_values_loop_app int self (l1 l2 : list string) d :
  add_values_loop int self (l1 ++ l2) d
  = match add_values_loop int self l1 d with
    | (d', None) => add_values_loop int self l2 d'
    | (d', Some x) => (d', Some x)
    end.
Proof.
  revert d. induction l1 as [|piece l1 IH]; intros d; [done|].
  simpl. destruct (add_value_from_pair int self piece d) as [x|d1]; [done|].
  apply IH.
Qed.

Lemma objects_get_inr d i p v :
  objects_get d i p = inr v ->
  v ∈ tbl_propertyvalue d /\ pv_id v = i /\ prop_id v = p.
Proof.
  unfold objects_get.
  destruct (List.filter _ (tbl_propertyvalue d)) as [|w [|w' l]] eqn:Hf;
    [discriminate | | discriminate].
  intros [= <-].
  assert (In w (List.filter
                  (fun v => bool_decide (pv_id v = i) && bool_decide (prop_id v = p))
                  (tbl_propertyvalue d))) as Hin by (rewrite Hf; by left).
  apply filter_In in Hin as [Hin Hb]. apply andb_true_iff in Hb as [Hi Hp].
  apply bool_decide_eq_true in Hi, Hp. split_and!; [by apply list_elem_of_In|done|done].
Qed.

Lemma add_value_from_pair_inr int self piece d d' :
  add_value_from_pair int self piece d = inr d' ->
  exists prop value i p v,
    split ":"%char piece = [prop; value]
    /\ int value = Some i /\ int prop = Some p
    /\ objects_get d i p = inr v
    /\ d' = values_add self v d.
Proof.
  unfold add_value_from_pair.
  destruct (split ":"%char piece) as [|prop [|value [|x l]]]; try discriminate.
  destruct (int value) as [i|] eqn:Hi; [|discriminate].
  destruct (int prop) as [p|] eqn:Hp; [|discriminate].
  destruct (objects_get d i p) as [x|v] eqn:Hg; [discriminate|].
  intros [= <-]. by exists prop, value, i, p, v.
Qed.

Lemma values_add_frame self v d :
  same_but_values d (values_add self v d)
  /\ (forall row, row ∈ tbl_itemvariation_values d ->
                  row ∈ tbl_itemvariation_values (values_add self v d))
  /\ (iv_id self, pv_id v) ∈ tbl_itemvariation_values (values_add self v d)
  /\ (forall row, row ∈ tbl_itemvariation_values (values_add self v d) ->
                  row ∈ tbl_itemvariation_values d \/ row = (iv_id self, pv_id v)).
Proof.
  unfold values_add, same_but_values. case_bool_decide as Hin.
  - split_and!; try done. intros row Hrow. by left.
  - simpl. split_and!; try done.
    + intros row Hrow. apply elem_of_app. by left.
    + apply elem_of_app. right. apply list_elem_of_singleton. done.
    + intros row Hrow. apply elem_of_app in Hrow as [Hrow|Hrow]; [by left|].
      right. by apply list_elem_of_singleton in Hrow.
Qed.

Lemma add_values_loop_frame int self (l : list string) d :
  same_but_values d (add_values_loop int self l d).1
  /\ (forall row, row ∈ tbl_itemvariation_values d ->
        row ∈ tbl_itemvariation_values (add_values_loop int self l d).1)
  /\ (forall row, row ∈ tbl_itemvariation_values (add_values_loop int self l d).1 ->
        row ∈ tbl_itemvariation_values d
        \/ exists v, v ∈ tbl_propertyvalue d /\ row = (iv_id self, pv_id v)).
Proof.
  revert d. induction l as [|piece l IH]; intros d.
  - simpl. unfold same_but_values. split_and!; try done. intros row Hrow. by left.
  - simpl. destruct (add_value_from_pair int self piece d) as [x|d1] eqn:Hp.
    + simpl. unfold same_but_values. split_and!; try done. intros row Hrow. by left.
    + apply add_value_from_pair_inr in Hp as (prop & value & i & p & v & _ & _ & _ & Hg & ->).
      apply objects_get_inr in Hg as (Hv & _ & _).
      destruct (values_add_frame self v d) as (Hs & Hsub & _ & Hnew).
      destruct (IH (values_add self v d)) as (Hs' & Hsub' & Hnew').
      split_and!.
      * unfold same_but_values in *.
        destruct Hs as (<- & <- & <- & <- & <- & <- & <- & <-).
        exact Hs'.
      * intros row Hrow. by apply Hsub', Hsub.
      * intros row Hrow. destruct (Hnew' row Hrow) as [Hr|(w & Hw & ->)].
        -- destruct (Hnew row Hr) as [?| ->]; [by left | right; eauto].
        -- right. exists w. split; [|done].
           destruct Hs as (_ & <- & _). exact Hw.
Qed.

(** X19: a string of two parts joined by a comma is processed as the
    first part and then the second: when the first part raises, the call
    raises the same exception with the same rows added; otherwise the
    second part runs on the database the first part leaves. *)
Theorem add_values_from_string_sequence
    (int : string -> option Z) (self : ItemVariation) (a b : string) (d : Db) :
  add_values_from_string int self (a +:+ "," +:+ b) d
  = match add_values_from_string int self a d with
    | (d', None) => add_values_from_string int self b d'
    | (d', Some x) => (d', Some x)
    end.
Proof.
  unfold add_values_from_string.
  change (a +:+ "," +:+ b) with (a +:+ String ","%char b).
  rewrite split_app. apply add_values_loop_app.
Qed.

(** X20: the empty string raises [ValueError] and adds nothing; a string
    that ends in a comma always raises, after the pairs before the comma
    have been processed. *)
Theorem add_values_from_string_empty
    (int : string -> option Z) (self : ItemVariation) (d : Db) :
  add_values_from_string int self "" d = (d, Some orm_ValueError)
  /\ forall pk,
       add_values_from_string int self (pk +:+ ",") d
       = match add_values_from_string int self pk d with
         | (d', None) => (d', Some orm_ValueError)
         | (d', Some x) => (d', Some x)
         end.
Proof.
  split; [reflexivity|]. intros pk.
  unfold add_values_from_string.
  change (pk +:+ ",") with (pk +:+ String ","%char EmptyString).
  rewrite split_app, add_values_loop_app.
  by destruct (add_values_loop int self (split ","%char pk) d) as [d' [x|]].
Qed.

(** X21: whether it raises or not, [add_values_from_string] changes
    nothing but the values of the variation: the other tables stay as they
    are, no value is removed, every row added links the variation to an
    existing value, and the values of every other variation are the same
    as before. *)
Theorem add_values_from_string_frame
    (int : string -> option Z) (self : ItemVariation) (pk : string) (d : Db) :
  let d' := (add_values_from_string int self pk d).1 in
  same_but_values d d'
  /\ (forall row, row ∈ tbl_itemvariation_values d ->
                  row ∈ tbl_itemvariation_values d')
  /\ (forall row, row ∈ tbl_itemvariation_values d' ->
        row ∈ tbl_itemvariation_values d
        \/ exists v, v ∈ tbl_propertyvalue d /\ row = (iv_id self, pv_id v))
  /\ (forall other, iv_id other <> iv_id self ->
        ItemVariation_values_all d' other = ItemVariation_values_all d other).
Proof.
  intros d'. unfold d', add_values_from_string.
  destruct (add_values_loop_frame int self (split ","%char pk) d)
    as (Hs & Hsub & Hnew).
  split_and!; [done | done | done |].
  intros other Hne. unfold ItemVariation_values_all.
  destruct Hs as (_ & -> & _). f_equal.
  apply filter_ext_in. intros v _. apply bool_decide_ext. split.
  - intros H. destruct (Hnew _ H) as [?|(w & _ & [= ? _])]; [done|]. contradiction.
  - apply Hsub.
Qed.

Lemma ItemVariation_values_all_elem d var v :
  v ∈ tbl_propertyvalue d ->
  (iv_id var, pv_id v) ∈ tbl_itemvariation_values d ->
  v ∈ ItemVariation_values_all d var.
Proof.
  intros Hv Hrow. unfold ItemVariation_values_all, order_by_position.
  rewrite merge_sort_Permutation.
  apply list_elem_of_In, filter_In. split; [by apply list_elem_of_In|].
  by apply bool_decide_eq_true.
Qed.

Lemma add_values_loop_adds int self (l : list string) d d' :
  add_values_loop int self l d = (d', None) ->
  forall piece, piece ∈ l ->
    exists prop value i p v,
      split ":"%char piece = [prop; value]
      /\ int value = Some i /\ int prop = Some p
      /\ pv_id v = i /\ prop_id v = p
      /\ v ∈ tbl_propertyvalue d
      /\ (iv_id self, pv_id v) ∈ tbl_itemvariation_values d'.
Proof.
  revert d. induction l as [|piece0 l IH]; intros d H piece Hin.
  - by apply elem_of_nil in Hin.
  - simpl in H.
    destruct (add_value_from_pair int self piece0 d) as [x|d1] eqn:Hp;
      [discriminate|].
    destruct (add_value_from_pair_inr _ _ _ _ _ Hp)
      as (prop & value & i & p & v & Hsplit & Hi & Hpr & Hg & ->).
    apply objects_get_inr in Hg as (Hv & Hvi & Hvp).
    destruct (values_add_frame self v d) as (Hs & _ & Hrow & _).
    destruct (add_values_loop_frame int self l (values_add self v d))
      as (_ & Hsub & _).
    rewrite H in Hsub. simpl in Hsub.
    apply elem_of_cons in Hin as [->|Hin].
    + exists prop, value, i, p, v. split_and!; try done. by apply Hsub.
    + destruct (IH _ H piece Hin) as (prop' & value' & i' & p' & v' & H').
      exists prop', value', i', p', v'.
      destruct Hs as (_ & Hpv & _). rewrite Hpv in H'. exact H'.
Qed.

(** X22: when [add_values_from_string] returns without raising, every
    piece between the commas is a pair prop:value of two numbers, a value
    row with that id and that property exists, and it is among the values
    of the variation afterwards. *)
Theorem add_values_from_string_adds
    (int : string -> option Z) (self : ItemVariation) (pk : string) (d d' : Db) :
  add_values_from_string int self pk d = (d', None) ->
  Forall (fun piece =>
            exists prop value i p v,
              split ":"%char piece = [prop; value]
              /\ int value = Some i /\ int prop = Some p
              /\ pv_id v = i /\ prop_id v = p
              /\ v ∈ ItemVariation_values_all d' self)
         (split ","%char pk).
Proof.
  unfold add_values_from_string. intros H. apply Forall_forall. intros piece Hin.
  destruct (add_values_loop_adds _ _ _ _ _ H piece Hin)
    as (prop & value & i & p & v & Hsplit & Hi & Hp & Hvi & Hvp & Hv & Hrow).
  exists prop, value, i, p, v. split_and!; try done.
  apply ItemVariation_values_all_elem; [|done].
  destruct (add_values_loop_frame int self (split ","%char pk) d) as (Hs & _).
  rewrite H in Hs. simpl in Hs. destruct Hs as (_ & -> & _). exact Hv.
Qed.

Lemma add_values_from_string_adds_witness :
  Forall (fun piece =>
            exists prop value i p v,
              split ":"%char piece = [prop; value]
              /\ decimal value = Some i /\ decimal prop = Some p
              /\ pv_id v = i /\ prop_id v = p
              /\ v ∈ ItemVariation_values_all
                       (add_values_from_string decimal Sample.M_only "2:22,1:12"
                          (Sample.shop 0 0 0)).1
                       Sample.M_only)
         (split ","%char "2:22,1:12").
Proof.
  apply (add_values_from_string_adds decimal Sample.M_only "2:22,1:12"
           (Sample.shop 0 0 0)).
  vm_compute. reflexivity.
Defined.

Lemma add_values_loop_again int self (l : list string) d d' d'' :
  add_values_loop int self l d = (d', None) ->
  tbl_propertyvalue d'' = tbl_propertyvalue d ->
  (forall row, row ∈ tbl_itemvariation_values d' ->
               row ∈ tbl_itemvariation_values d'') ->
  add_values_loop int self l d'' = (d'', None).
Proof.
  revert d. induction l as [|piece l IH]; intros d H Hpv Hsub; [done|].
  simpl in H.
  destruct (add_value_from_pair int self piece d) as [x|d1] eqn:Hp;
    [discriminate|].
  destruct (add_value_from_pair_inr _ _ _ _ _ Hp)
    as (prop & value & i & p & v & Hsplit & Hi & Hpr & Hg & ->).
  destruct (values_add_frame self v d) as (Hs & _ & Hrow & _).
  destruct (add_values_loop_frame int self l (values_add self v d))
    as (_ & Hsub1 & _).
  rewrite H in Hsub1. simpl in Hsub1.
  assert (add_value_from_pair int self piece d'' = inr d'') as Hp''.
  { unfold add_value_from_pair. rewrite Hsplit, Hi, Hpr.
    assert (objects_get d'' i p = inr v) as ->
      by (unfold objects_get in *; by rewrite Hpv).
    unfold values_add. rewrite bool_decide_eq_true_2; [done|].
    by apply Hsub, Hsub1. }
  simpl. rewrite Hp''. apply (IH (values_add self v d)); [done| |done].
  destruct Hs as (_ & -> & _). exact Hpv.
Qed.

(** X23: [add_values_from_string] is idempotent: when a call returns
    without raising, the same call on the database it leaves returns
    without raising too and changes nothing. *)
Theorem add_values_from_string_idempotent
    (int : string -> option Z) (self : ItemVariation) (pk : string) (d d' : Db) :
  add_values_from_string int self pk d = (d', None) ->
  add_values_from_string int self pk d' = (d', None).
Proof.
  unfold add_values_from_string. intros H.
  apply (add_values_loop_again int self _ d d' d' H); [|done].
  destruct (add_values_loop_frame int self (split ","%char pk) d) as (Hs & _).
  rewrite H in Hs. simpl in Hs. by destruct Hs as (_ & -> & _).
Qed.

Lemma add_values_from_string_idempotent_witness :
  add_values_from_string decimal Sample.M_only "2:22,1:12"
    (add_values_from_string decimal Sample.M_only "2:22,1:12" (Sample.shop 0 0 0)).1
  = ((add_values_from_string decimal Sample.M_only "2:22,1:12"
        (Sample.shop 0 0 0)).1, None).
Proof.
  apply (add_values_from_string_idempotent decimal Sample.M_only "2:22,1:12"
           (Sample.shop 0 0 0)).
  vm_compute. reflexivity.
Defined.

Example add_values_from_string_examples :
  (add_values_from_string decimal Sample.M_only "2:22,x" (Sample.shop 0 0 0)).2
  = Some orm_ValueError
  /\ (103, 22) ∈ tbl_itemvariation_values
       (add_values_from_string decimal Sample.M_only "2:22,x" (Sample.shop 0 0 0)).1
  /\ (add_values_from_string decimal Sample.M_only "2:11" (Sample.shop 0 0 0)).2
     = Some DoesNotExist
  /\ (add_values_from_string decimal Sample.M_only "2:22:1" (Sample.shop 0 0 0)).2
     = Some orm_ValueError.
Proof.
  split_and!; [vm_compute; reflexivity | | vm_compute; reflexivity
               | vm_compute; reflexivity].
  apply list_elem_of_In. vm_compute. do 13 right. left. reflexivity.
Qed.

(** ** Variations: the combinations are distinct *)

Lemma Property_values_all_NoDup d p :
  NoDup (tbl_propertyvalue d) -> NoDup (Property_values_all d p).
Proof.
  intros H. unfold Property_values_all, order_by_position.
  rewrite merge_sort_Permutation.
  by apply NoDup_ListNoDup, List.NoDup_filter, NoDup_ListNoDup.
Qed.

Lemma flat_map_cons_NoDup {A} (pool : list A) (P : list (list A)) :
  NoDup pool -> NoDup P ->
  NoDup (flat_map (fun x => map (cons x) P) pool).
Proof.
  intros Hpool HP. induction Hpool as [|x pool Hx Hpool IH]; [constructor|].
  simpl. apply NoDup_app. split_and!.
  - apply NoDup_ListNoDup, NoDup_map_NoDup_ForallPairs;
      [|by apply NoDup_ListNoDup].
    intros c c' _ _ Heq. by injection Heq.
  - intros c Hc Hc'.
    apply list_elem_of_In, in_map_iff in Hc as (c0 & <- & _).
    apply list_elem_of_In, in_flat_map in Hc' as (y & Hy & Hc').
    apply in_map_iff in Hc' as (c1 & Heq & _). injection Heq as -> _.
    apply Hx. by apply list_elem_of_In.
  - exact IH.
Qed.

Lemma product_NoDup {A} (pools : list (list A)) :
  Forall NoDup pools -> NoDup (product pools).
Proof.
  induction 1 as [|pool pools Hpool _ IH].
  - simpl. apply NoDup_singleton.
  - simpl. by apply flat_map_cons_NoDup.
Qed.

Lemma foldl_setitem_inj (comb comb' : list PropertyValue) (vd : VariationDict) :
  NoDup (map prop_id comb) ->
  map prop_id comb = map prop_id comb' ->
  vd_values (foldl (fun var v => setitem (prop_id v) v var) vd comb)
  = vd_values (foldl (fun var v => setitem (prop_id v) v var) vd comb') ->
  comb = comb'.
Proof.
  revert comb' vd. induction comb as [|v c IH]; intros comb' vd Hnd Hids Hmap.
  - by destruct comb'.
  - destruct comb' as [|v' c']; [discriminate Hids|].
    simpl in Hids. injection Hids as Hp Hids.
    simpl in Hnd. apply NoDup_cons in Hnd as [Hv Hnd].
    assert (v = v') as <-.
    { assert (prop_id v ∉ map prop_id c') as Hv' by (by rewrite <- Hids).
      simpl in Hmap. apply (f_equal (fun m => m !! prop_id v)) in Hmap.
      rewrite !foldl_setitem_untouched in Hmap by done.
      simpl in Hmap. rewrite <- Hp in Hmap.
      rewrite !lookup_insert_eq in Hmap. congruence. }
    f_equal. by apply (IH c' (setitem (prop_id v) v vd)).
Qed.

(** X24: when the value rows are distinct and the properties of the item
    have distinct ids, the combinations [get_all_variations] returns
    differ pairwise in their property entries: no combination of values
    comes twice. *)
Theorem get_all_variations_distinct (d : Db) (self : Item) (use_cache : bool) :
  cache_current use_cache (_get_all_variations_cache self)
                (all_variations_computed d self) ->
  NoDup (tbl_propertyvalue d) ->
  NoDup (map property_id (Item_properties_all d self)) ->
  NoDup (map vd_values (get_all_variations d self use_cache).1).
Proof.
  intros Hc Hrows Hids. rewrite (get_all_variations_computed _ _ _ Hc).
  unfold all_variations_computed. rewrite map_map.
  apply NoDup_ListNoDup, NoDup_map_NoDup_ForallPairs.
  - intros comb comb' Hin Hin' Heq.
    destruct (comb_to_dict_values
                (variations_cache d (Item_variations_all d self)) comb) as (Hv & _).
    destruct (comb_to_dict_values
                (variations_cache d (Item_variations_all d self)) comb') as (Hv' & _).
    rewrite Hv, Hv' in Heq.
    apply (foldl_setitem_inj comb comb' VariationDict_new); [| |done].
    + by rewrite (product_prop_ids _ _ _ Hin).
    + by rewrite (product_prop_ids _ _ _ Hin), (product_prop_ids _ _ _ Hin').
  - apply NoDup_ListNoDup, product_NoDup. apply Forall_forall. intros pool Hpool.
    apply list_elem_of_In, in_map_iff in Hpool as (p & <- & _).
    by apply Property_values_all_NoDup.
Qed.

Lemma get_all_variations_distinct_witness :
  NoDup (map vd_values (get_all_variations (Sample.shop 0 0 0) Sample.shirt false).1).
Proof.
  apply (get_all_variations_distinct (Sample.shop 0 0 0) Sample.shirt false).
  - intros H. discriminate H.
  - refine (bool_decide_unpack _ _). vm_compute. exact I.
  - refine (bool_decide_unpack _ _). vm_compute. exact I.
Defined.
